(** * combinetxt: grouping scraped text files by their source URL

    A shallow embedding of [src/combinetxt.py] (class [TextFileCombiner])
    and the properties of its three methods [get_source_url],
    [get_file_group] and [combine_files].

    Python text is modelled by [string]; a character is a code point below
    256.  The file system is a finite map from paths to files, which hold
    their characters as stored; reading in text mode translates the line
    ends, writing is that of a POSIX system.  The console is the list of the
    lines handed to [print]. *)

From Stdlib Require Import Ascii String DecimalString.
From stdpp Require Import base option list gmap strings.

(** ** Python string primitives *)

Module Py.

(** The line feed, ["\n"] in the source. *)
Definition LF : ascii := "010"%char.
Definition nl : string := String LF "".

(** [str.isspace] on one character: the code points below 256 that Python
    treats as white space are 9-13, 28-32, 133 and 160. *)
Definition isspace (c : ascii) : bool :=
  let n := nat_of_ascii c in
  ((9 <=? n)%nat && (n <=? 13)%nat) || ((28 <=? n)%nat && (n <=? 32)%nat)
  || (n =? 133)%nat || (n =? 160)%nat.

Fixpoint lstrip (s : string) : string :=
  match s with
  | String c s' => if isspace c then lstrip s' else s
  | EmptyString => EmptyString
  end.

Fixpoint rstrip (s : string) : string :=
  match s with
  | EmptyString => EmptyString
  | String c s' =>
      match rstrip s' with
      | EmptyString => if isspace c then EmptyString else String c EmptyString
      | r => String c r
      end
  end.

(** [s.strip()]: leading and trailing white space both go. *)
Definition strip (s : string) : string := rstrip (lstrip s).

(** [s.startswith(pre)]. *)
Fixpoint startswith (s pre : string) {struct pre} : bool :=
  match pre, s with
  | EmptyString, _ => true
  | String a pre', String b s' => if ascii_dec a b then startswith s' pre' else false
  | String _ _, EmptyString => false
  end.

(** [s.endswith("/")], the only use [posixpath.join] makes of it. *)
Fixpoint endswith_sep (s : string) : bool :=
  match s with
  | EmptyString => false
  | String c EmptyString => if ascii_dec c "/"%char then true else false
  | String _ s' => endswith_sep s'
  end.

(** [c * n] for a one-character string [c]. *)
Fixpoint repeat_char (c : ascii) (n : nat) : string :=
  match n with
  | O => EmptyString
  | S n' => String c (repeat_char c n')
  end.

(** [str(n)] for a length. *)
Definition str_of_nat (n : nat) : string := NilEmpty.string_of_uint (Nat.to_uint n).

(** The carriage return, ["\r"] in Python. *)
Definition CR : ascii := "013"%char.
Definition cr : string := String CR "".

(** Universal newlines, the default of [open(path, 'r', encoding='utf-8')]:
    what a handle delivers has ["\r\n"] and a lone ["\r"] turned into the
    line feed. *)
Fixpoint universal_newlines (s : string) : string :=
  match s with
  | EmptyString => EmptyString
  | String c s' =>
      if ascii_dec c CR then
        match s' with
        | String c' s'' =>
            if ascii_dec c' LF then String LF (universal_newlines s'')
            else String LF (universal_newlines s')
        | EmptyString => String LF EmptyString
        end
      else String c (universal_newlines s')
  end.

(** A carriage return that ends the input of the decoder is held back until
    the decoder sees what follows it. *)
Fixpoint without_final_cr (s : string) : string :=
  match s with
  | EmptyString => EmptyString
  | String c EmptyString => if ascii_dec c CR then EmptyString else s
  | String c s' => String c (without_final_cr s')
  end.

(** What [readline()] returns on the text a handle delivers, line ends
    already translated: everything up to and including the first line feed,
    or the whole text when it has none. *)
Fixpoint readline (s : string) : string :=
  match s with
  | EmptyString => EmptyString
  | String c s' => if ascii_dec c LF then String c EmptyString else String c (readline s')
  end.

Fixpoint has_newline (s : string) : bool :=
  match s with
  | EmptyString => false
  | String c s' => if ascii_dec c LF then true else has_newline s'
  end.

(** [posixpath.join(a, b)] with two arguments. *)
Definition path_join (a b : string) : string :=
  if startswith b "/" then b
  else if orb (if string_dec a "" then true else false) (endswith_sep a) then a +:+ b
  else a +:+ "/" +:+ b.

(** Truth value of an optional string: [None] and [""] are false. *)
Definition truthy (o : option string) : bool :=
  match o with
  | Some (String _ _) => true
  | _ => false
  end.

(** *** The regular expression [r"Source URL: (.+)"] under [re.match] *)

(** [remove_prefix pre s] is what follows the literal [pre] at the start of
    [s]. *)
Fixpoint remove_prefix (pre s : string) : option string :=
  match pre, s with
  | EmptyString, _ => Some s
  | String a pre', String b s' => if ascii_dec a b then remove_prefix pre' s' else None
  | String _ _, EmptyString => None
  end.

(** The greedy [.+] group: [.] matches any character but the line feed. *)
Fixpoint dot_run (s : string) : string :=
  match s with
  | EmptyString => EmptyString
  | String c s' => if ascii_dec c LF then EmptyString else String c (dot_run s')
  end.

(** [re.match(r"Source URL: (.+)", line)], giving [match.group(1)]. *)
Definition re_match_source_url (line : string) : option string :=
  match remove_prefix "Source URL: " line with
  | Some rest =>
      match dot_run rest with
      | EmptyString => None
      | g => Some g
      end
  | None => None
  end.

End Py.

Import Py.

(** ** Files, console and exceptions *)

(** What reading a path can meet; the characters are those stored in the
    file, before the translation of line ends.  [Text] is a file that decodes
    as a whole.  [DamagedTail head err] is a file of which the leading chunks
    decode, to [head], and the next chunk does not: [read()] raises [err],
    [readline()] still answers when what the decoder has delivered of [head]
    holds a complete line.  [Unreadable err] raises as soon as it is opened
    or first read. *)
Inductive file :=
  | Text (content : string)
  | DamagedTail (head err : string)
  | Unreadable (err : string).

(** [out_f] is the text written so far to the output handle that is open;
    it reaches the file when the [with] block closes the handle. *)
Record world := World {
  files : gmap string file;
  console : list string;
  out_f : string
}.

(** A statement returns or raises an exception, carried by its message. *)
Inductive outcome (A : Type) :=
  | Return (a : A)
  | Raise (e : string).
Arguments Return {A} a.
Arguments Raise {A} e.

Definition M (A : Type) : Type := world -> outcome A * world.

Global Instance M_ret : MRet M := fun A a w => (Return a, w).
Global Instance M_bind : MBind M := fun A B k m w =>
  match m w with
  | (Return a, w') => k a w'
  | (Raise e, w') => (Raise e, w')
  end.

Definition raise {A} (e : string) : M A := fun w => (Raise e, w).

(** [try: body except Exception as e: handler e]. *)
Definition try_except {A} (body : M A) (handler : string -> M A) : M A := fun w =>
  match body w with
  | (Return a, w') => (Return a, w')
  | (Raise e, w') => handler e w'
  end.

(** [try: body finally: cleanup]. *)
Definition try_finally {A} (body : M A) (cleanup : M unit) : M A := fun w =>
  match body w with
  | (Return a, w') =>
      match cleanup w' with
      | (Return _, w'') => (Return a, w'')
      | (Raise e, w'') => (Raise e, w'')
      end
  | (Raise e, w') =>
      match cleanup w' with
      | (Return _, w'') => (Raise e, w'')
      | (Raise e', w'') => (Raise e', w'')
      end
  end.

Definition print (line : string) : M unit := fun w =>
  (Return tt, World (files w) (console w ++ [line]) (out_f w)).

Fixpoint for_each {A} (xs : list A) (body : A -> M unit) : M unit :=
  match xs with
  | [] => mret tt
  | x :: xs' => body x ;; for_each xs' body
  end.

(** A [for] loop that updates local variables [s]. *)
Fixpoint for_fold {A S} (xs : list A) (s : S) (body : S -> A -> M S) : M S :=
  match xs with
  | [] => mret s
  | x :: xs' => s' ← body s x; for_fold xs' s' body
  end.

Definition no_such_file (path : string) : string :=
  "[Errno 2] No such file or directory: '" +:+ path +:+ "'".

(** [open(path, 'r', encoding='utf-8')]. *)
Definition open_r (path : string) : M file := fun w =>
  match files w !! path with
  | Some (Unreadable e) => (Raise e, w)
  | Some f => (Return f, w)
  | None => (Raise (no_such_file path), w)
  end.

(** [f.readline()] on a handle just opened. *)
Definition f_readline (f : file) : M string :=
  match f with
  | Text content => mret (readline (universal_newlines content))
  | DamagedTail head e =>
      let delivered := universal_newlines (without_final_cr head) in
      if has_newline delivered then mret (readline delivered) else raise e
  | Unreadable e => raise e
  end.

(** [f.read()] on a handle just opened. *)
Definition f_read (f : file) : M string :=
  match f with
  | Text content => mret (universal_newlines content)
  | DamagedTail _ e => raise e
  | Unreadable e => raise e
  end.

(** [open(path, 'w', encoding='utf-8')]: the file is created or truncated.
    Output paths are taken to be writable (the model has no directories and
    no permissions), so this [open] does not raise. *)
Definition open_w (path : string) : M unit := fun w =>
  (Return tt, World (<[path := Text ""]> (files w)) (console w) "").

(** [out_f.write(s)]. *)
Definition write (s : string) : M unit := fun w =>
  (Return tt, World (files w) (console w) (out_f w +:+ s)).

(** Leaving the [with] block of an output handle. *)
Definition close_w (path : string) : M unit := fun w =>
  (Return tt, World (<[path := Text (out_f w)]> (files w)) (console w) "").

(** [with open(path, 'w', encoding='utf-8') as out_f: body]. *)
Definition with_open_w (path : string) (body : M unit) : M unit :=
  open_w path ;; try_finally body (close_w path).

(** ** The class [TextFileCombiner] *)

(** [defaultdict(list)]: keys in insertion order. *)
Fixpoint dict_append {V} (d : list (string * list V)) (k : string) (v : V)
  : list (string * list V) :=
  match d with
  | [] => [(k, [v])]
  | (k', vs) :: d' =>
      if string_dec k' k then (k', vs ++ [v]) :: d' else (k', vs) :: dict_append d' k v
  end.

Record TextFileCombiner := {
  input_dir : string;
  output_dir : string;
  url_patterns : list (string * string)
}.

(** The object [__init__] builds: its two directories and the table.
    [__init__] also creates the output directory when it is missing; the
    model holds files only, no directories, and takes every output path to
    be writable. *)
Definition init (input_dir output_dir : string) : TextFileCombiner := {|
  input_dir := input_dir;
  output_dir := output_dir;
  url_patterns := [
    ("core-nodes", "https://docs.n8n.io/integrations/builtin/core-nodes/");
    ("app-nodes", "https://docs.n8n.io/integrations/builtin/app-nodes/");
    ("trigger-nodes", "https://docs.n8n.io/integrations/builtin/trigger-nodes/");
    ("cluster-nodes", "https://docs.n8n.io/integrations/builtin/cluster-nodes/");
    ("credentials", "https://docs.n8n.io/integrations/builtin/credentials/")
  ]
|}.

Definition get_source_url (self : TextFileCombiner) (file_path : string) : M (option string) :=
  try_except
    (f ← open_r file_path;
     line ← f_readline f;
     let first_line := strip line in
     match re_match_source_url first_line with
     | Some url => mret (Some url)
     | None => mret None
     end)
    (fun e => print ("Error reading file " +:+ file_path +:+ ": " +:+ e) ;; mret None).

(** The loop of [get_file_group] over [url_patterns.items()]. *)
Fixpoint first_match (url : string) (patterns : list (string * string)) : option string :=
  match patterns with
  | [] => None
  | (group_name, pattern) :: rest =>
      if startswith url pattern then Some group_name else first_match url rest
  end.

Definition get_file_group (self : TextFileCombiner) (url : option string) : option string :=
  match url with
  | Some (String c u) => first_match (String c u) (url_patterns self)
  | _ => None
  end.

(** One delimiter write, [f"\n{'=' * 80}\n"]. *)
Definition separator : string := nl +:+ repeat_char "="%char 80 +:+ nl.

(** The loop over the members of a bucket, the same in both write blocks. *)
Definition copy_members (files : list (string * option string)) : M unit :=
  for_each files (fun '(file_path, url) =>
    try_except
      (in_f ← open_r file_path;
       content ← f_read in_f;
       write separator ;;
       write content ;;
       write separator)
      (fun e => print ("Error processing file " +:+ file_path +:+ ": " +:+ e))).

Definition bucket := list (string * option string).

(** [text_files] is the answer of [glob.glob(os.path.join(self.input_dir,
    "*.txt"))]. *)
Definition combine_files (self : TextFileCombiner) (text_files : list string) : M unit :=
  print ("Found " +:+ str_of_nat (length text_files) +:+ " text files to process") ;;
  '(grouped_files, other_files) ←
    for_fold text_files (([] : list (string * bucket)), ([] : bucket))
      (fun '(grouped_files, other_files) file_path =>
         url ← get_source_url self file_path;
         let group := get_file_group self url in
         if truthy group
         then mret (dict_append grouped_files (default "" group) (file_path, url), other_files)
         else mret (grouped_files, other_files ++ [(file_path, url)]));
  for_each grouped_files (fun '(group_name, files) =>
    let output_file := path_join (output_dir self) (group_name +:+ ".txt") in
    print ("Creating combined file for " +:+ group_name +:+ " with "
           +:+ str_of_nat (length files) +:+ " files") ;;
    with_open_w output_file
      (write ("### Combined Content for " +:+ group_name +:+ " ###" +:+ nl +:+ nl) ;;
       copy_members files)) ;;
  (match other_files with
   | [] => mret tt
   | _ :: _ =>
       let output_file := path_join (output_dir self) "other_content.txt" in
       print ("Creating file for other content with "
              +:+ str_of_nat (length other_files) +:+ " files") ;;
       with_open_w output_file
         (write ("### Content from Other URLs ###" +:+ nl +:+ nl) ;;
          copy_members other_files)
   end) ;;
  print (nl +:+ "Combination complete. Summary:") ;;
  for_each grouped_files (fun '(group_name, files) =>
    print ("- " +:+ group_name +:+ ": " +:+ str_of_nat (length files) +:+ " files")) ;;
  print ("- other_content: " +:+ str_of_nat (length other_files) +:+ " files").

(** ** What a run computes, as functions of the file system *)

(** The result of [open(path).readline()] and of [open(path).read()]. *)
Definition first_line_of (fs : gmap string file) (path : string) : outcome string :=
  match fs !! path with
  | Some (Text content) => Return (readline (universal_newlines content))
  | Some (DamagedTail head e) =>
      let delivered := universal_newlines (without_final_cr head) in
      if has_newline delivered then Return (readline delivered) else Raise e
  | Some (Unreadable e) => Raise e
  | None => Raise (no_such_file path)
  end.

Definition text_of (fs : gmap string file) (path : string) : outcome string :=
  match fs !! path with
  | Some (Text content) => Return (universal_newlines content)
  | Some (DamagedTail _ e) => Raise e
  | Some (Unreadable e) => Raise e
  | None => Raise (no_such_file path)
  end.

Definition source_url (fs : gmap string file) (path : string) : option string :=
  match first_line_of fs path with
  | Return line => re_match_source_url (strip line)
  | Raise _ => None
  end.

Definition source_url_log (fs : gmap string file) (path : string) : list string :=
  match first_line_of fs path with
  | Return _ => []
  | Raise e => ["Error reading file " +:+ path +:+ ": " +:+ e]
  end.

Definition buckets : Type := list (string * bucket) * bucket.

(** One turn of the grouping loop. *)
Definition place (self : TextFileCombiner) (fs : gmap string file)
    (acc : buckets) (file_path : string) : buckets :=
  let url := source_url fs file_path in
  let group := get_file_group self url in
  if truthy group
  then (dict_append acc.1 (default "" group) (file_path, url), acc.2)
  else (acc.1, acc.2 ++ [(file_path, url)]).

Definition scan_from (self : TextFileCombiner) (fs : gmap string file)
    (acc : buckets) (text_files : list string) : buckets :=
  fold_left (place self fs) text_files acc.

Definition scan (self : TextFileCombiner) (fs : gmap string file)
    (text_files : list string) : buckets :=
  scan_from self fs ([], []) text_files.

Definition scan_log (fs : gmap string file) (text_files : list string) : list string :=
  concat (map (source_url_log fs) text_files).

(** What one member adds to the output that is open. *)
Definition member_block (fs : gmap string file) (member : string * option string) : string :=
  match text_of fs member.1 with
  | Return content => separator +:+ content +:+ separator
  | Raise _ => ""
  end.

Fixpoint blocks (fs : gmap string file) (members : bucket) : string :=
  match members with
  | [] => ""
  | m :: rest => member_block fs m +:+ blocks fs rest
  end.

Definition copy_log (fs : gmap string file) (members : bucket) : list string :=
  concat (map (fun m : string * option string =>
    match text_of fs m.1 with
    | Return _ => []
    | Raise e => ["Error processing file " +:+ m.1 +:+ ": " +:+ e]
    end) members).

(** One output file of a run: its path, the line printed before it is
    opened, the header written first and the members copied into it. *)
Record job := Job {
  job_path : string;
  job_announce : string;
  job_header : string;
  job_members : bucket
}.

Definition group_file (self : TextFileCombiner) (group_name : string) : string :=
  path_join (output_dir self) (group_name +:+ ".txt").
Definition other_file (self : TextFileCombiner) : string :=
  path_join (output_dir self) "other_content.txt".
Definition group_header (group_name : string) : string :=
  "### Combined Content for " +:+ group_name +:+ " ###" +:+ nl +:+ nl.
Definition other_header : string :=
  "### Content from Other URLs ###" +:+ nl +:+ nl.

Definition group_job (self : TextFileCombiner) (gf : string * bucket) : job := {|
  job_path := group_file self gf.1;
  job_announce := "Creating combined file for " +:+ gf.1 +:+ " with "
                  +:+ str_of_nat (length gf.2) +:+ " files";
  job_header := group_header gf.1;
  job_members := gf.2
|}.

Definition other_job (self : TextFileCombiner) (other_files : bucket) : job := {|
  job_path := other_file self;
  job_announce := "Creating file for other content with "
                  +:+ str_of_nat (length other_files) +:+ " files";
  job_header := other_header;
  job_members := other_files
|}.

(** The output files of a run, in the order they are written. *)
Definition jobs (self : TextFileCombiner) (b : buckets) : list job :=
  map (group_job self) b.1
  ++ match b.2 with
     | [] => []
     | _ :: _ => [other_job self b.2]
     end.

(** The file system after one [with open(out, 'w')] block.  Members are read
    while the output is open; what has been written to the handle reaches
    the file when the block closes it, so a member that is the open output
    itself is read as an empty file. *)
Definition emit (j : job) (fs : gmap string file) : gmap string file :=
  <[job_path j := Text (job_header j +:+ blocks (<[job_path j := Text ""]> fs) (job_members j))]> fs.

Definition emit_log (j : job) (fs : gmap string file) : list string :=
  job_announce j :: copy_log (<[job_path j := Text ""]> fs) (job_members j).

Definition emit_all (js : list job) (fs : gmap string file) : gmap string file :=
  fold_left (fun fs j => emit j fs) js fs.

Fixpoint emit_all_log (js : list job) (fs : gmap string file) : list string :=
  match js with
  | [] => []
  | j :: js' => emit_log j fs ++ emit_all_log js' (emit j fs)
  end.

(** The file system a run leaves. *)
Definition combined (self : TextFileCombiner) (text_files : list string)
    (fs : gmap string file) : gmap string file :=
  emit_all (jobs self (scan self fs text_files)) fs.

Definition summary (b : buckets) : list string :=
  [nl +:+ "Combination complete. Summary:"]
  ++ map (fun gf : string * bucket =>
            "- " +:+ gf.1 +:+ ": " +:+ str_of_nat (length gf.2) +:+ " files") b.1
  ++ ["- other_content: " +:+ str_of_nat (length b.2) +:+ " files"].

(** Everything a run prints. *)
Definition printed (self : TextFileCombiner) (text_files : list string)
    (fs : gmap string file) : list string :=
  let b := scan self fs text_files in
  ["Found " +:+ str_of_nat (length text_files) +:+ " text files to process"]
  ++ scan_log fs text_files
  ++ emit_all_log (jobs self b) fs
  ++ summary b.

(** The body of both write blocks, for one output file. *)
Definition run_job (j : job) : M unit :=
  print (job_announce j) ;;
  with_open_w (job_path j) (write (job_header j) ;; copy_members (job_members j)).

(** The output handle is closed after the last block, if there was one. *)
Definition last_out_f (js : list job) (cur : string) : string :=
  match js with
  | [] => cur
  | _ :: _ => ""
  end.

(** ** Vocabulary of the properties *)

(** [pre] is a literal prefix of [s]. *)
Definition is_prefix (pre s : string) : Prop := exists rest, s = pre +:+ rest.

(** A discovered file with the URL found in it, as the buckets hold it. *)
Definition annotate (fs : gmap string file) (path : string) : string * option string :=
  (path, source_url fs path).

(** All the members of all the buckets. *)
Definition members_of (b : buckets) : bucket := concat (map snd b.1) ++ b.2.

(** [grouped_files[k]] without creating the entry. *)
Fixpoint dict_get {V} (d : list (string * list V)) (k : string) : list V :=
  match d with
  | [] => []
  | (k', vs) :: d' => if string_dec k' k then vs else dict_get d' k
  end.

(** The bucket a member belongs to: [Some g] for a group, [None] for the
    other bucket. *)
Definition bucket_of (self : TextFileCombiner) (m : string * option string) : option string :=
  let group := get_file_group self m.2 in
  if truthy group then group else None.

(** The buckets after classification: the discovered files of one group, and
    those of no group, in enumeration order. *)
Definition group_bucket (self : TextFileCombiner) (fs : gmap string file)
    (text_files : list string) (g : string) : bucket :=
  filter (fun m => bucket_of self m = Some g) (map (annotate fs) text_files).

Definition other_bucket (self : TextFileCombiner) (fs : gmap string file)
    (text_files : list string) : bucket :=
  filter (fun m => bucket_of self m = None) (map (annotate fs) text_files).

(** Membership in the bucket named [k]: a group, or the other bucket. *)
Definition in_bucket (self : TextFileCombiner) (fs : gmap string file)
    (text_files : list string) (k : option string) (m : string * option string) : Prop :=
  match k with
  | Some g => m ∈ group_bucket self fs text_files g
  | None => m ∈ other_bucket self fs text_files
  end.

(** Every path a run may write, whatever the buckets. *)
Definition output_files (self : TextFileCombiner) : list string :=
  map (fun gp : string * string => group_file self gp.1) (url_patterns self)
  ++ [other_file self].

(** No discovered input is itself one of the combiner's output files. *)
Definition separate (self : TextFileCombiner) (text_files : list string) : Prop :=
  forall p, p ∈ text_files -> p ∉ output_files self.

(** A line of [n] characters [c], ended by a line feed. *)
Definition rule_line (c : ascii) (n : nat) : string := repeat_char c n +:+ nl.

(** Following the spec's words for [extractSourceURL]: the first line is
    read, trailing white space is stripped, and the pattern is matched at
    the start of the line. *)
Definition extractSourceURL (fs : gmap string file) (path : string) : option string :=
  match first_line_of fs path with
  | Return line => re_match_source_url (rstrip line)
  | Raise _ => None
  end.

(** [LF] occurs in [s] at most as its last character. *)
Fixpoint one_line (s : string) : bool :=
  match s with
  | EmptyString => true
  | String c s' =>
      if ascii_dec c LF then (if string_dec s' "" then true else false) else one_line s'
  end.

(** ** Further vocabulary *)

(** [s] holds a line feed or a carriage return. *)
Fixpoint has_line_break (s : string) : bool :=
  match s with
  | EmptyString => false
  | String c s' =>
      if ascii_dec c LF then true else if ascii_dec c CR then true else has_line_break s'
  end.

(** The three ways a stored line ends: ["\n"], ["\r"] and ["\r\n"]. *)
Definition line_end (e : string) : Prop := e = nl \/ e = cr \/ e = cr +:+ nl.

(** [s in t] of Python, as a relation and as a test. *)
Definition occurs (s t : string) : Prop := exists before after, t = before +:+ s +:+ after.

Fixpoint contains (t s : string) : bool :=
  if startswith t s then true
  else match t with
       | EmptyString => false
       | String _ t' => contains t' s
       end.

(** The group each discovered file is classified into, in enumeration
    order; files of no group are left out. *)
Definition groups_met (self : TextFileCombiner) (fs : gmap string file)
    (text_files : list string) : list string :=
  omap (fun p => bucket_of self (annotate fs p)) text_files.

(** The keys of [ks] that are not in [seen], each once, in the order of
    their first occurrence. *)
Fixpoint first_seen (seen ks : list string) : list string :=
  match ks with
  | [] => []
  | k :: ks' =>
      if decide (k ∈ seen) then first_seen seen ks' else k :: first_seen (k :: seen) ks'
  end.

(** The names of the six files a run may write. *)
Definition output_names (self : TextFileCombiner) : list string :=
  map (fun gp : string * string => gp.1 +:+ ".txt") (url_patterns self)
  ++ ["other_content.txt"].

(** ** Sample runs *)

(** The three files of the end-to-end scenario: one of the core nodes, one
    of the credentials, one without a source line. *)
Definition scenario_files : gmap string file :=
  <["docs/1.txt" := Text ("Source URL: https://docs.n8n.io/integrations/builtin/core-nodes/x"
                          +:+ nl +:+ "HELLO")]>
  (<["docs/2.txt" := Text ("Source URL: https://docs.n8n.io/integrations/builtin/credentials/y"
                           +:+ nl +:+ "WORLD")]>
  (<["docs/3.txt" := Text "no source line here"]> ∅)).

Definition scenario_inputs : list string := ["docs/1.txt"; "docs/2.txt"; "docs/3.txt"].

Definition scenario_world : world := World scenario_files [] "".

Definition scenario_self : TextFileCombiner := init "docs" "combined_docs".

(** The same directory with two more files: one that cannot be opened and
    one of the app nodes whose first line is read and whose rest is not. *)
Definition damaged_files : gmap string file :=
  <["docs/4.txt" := Unreadable "[Errno 13] Permission denied: 'docs/4.txt'"]>
  (<["docs/5.txt" :=
      DamagedTail ("Source URL: https://docs.n8n.io/integrations/builtin/app-nodes/z" +:+ nl)
                  "'utf-8' codec can't decode byte 0xff in position 9000: invalid start byte"]>
   scenario_files).

Definition damaged_inputs : list string :=
  ["docs/1.txt"; "docs/4.txt"; "docs/5.txt"; "docs/2.txt"; "docs/3.txt"].

Definition damaged_world : world := World damaged_files [] "".

(** One directory [d] used both as input and as output directory.  The
    discovered file [d/core-nodes.txt] is of the app nodes and
    [d/app-nodes.txt] has no source line; both carry the name of an output
    file of another bucket. *)
Definition shared_self : TextFileCombiner := init "d" "d".

Definition shared_files : gmap string file :=
  <["d/a.txt" := Text ("Source URL: https://docs.n8n.io/integrations/builtin/core-nodes/x"
                       +:+ nl +:+ "A")]>
  (<["d/core-nodes.txt" :=
      Text ("Source URL: https://docs.n8n.io/integrations/builtin/app-nodes/y"
            +:+ nl +:+ "B")]>
  (<["d/app-nodes.txt" := Text ("no source line" +:+ nl +:+ "C")]> ∅)).

Definition shared_inputs : list string :=
  ["d/a.txt"; "d/core-nodes.txt"; "d/app-nodes.txt"].

Definition shared_world : world := World shared_files [] "".

(** A file of the core nodes whose lines end in ["\r\n"]. *)
Definition crlf_text : string :=
  "Source URL: https://docs.n8n.io/integrations/builtin/core-nodes/x"
  +:+ cr +:+ nl +:+ "HELLO" +:+ cr +:+ nl.

Definition crlf_world : world := World {["docs/1.txt" := Text crlf_text]} [] "".

(** A file of the core nodes whose first line starts with a blank. *)
Definition indented_world : world :=
  World {["docs/a.txt" :=
           Text (" Source URL: https://docs.n8n.io/integrations/builtin/core-nodes/x"
                 +:+ nl +:+ "body")]} [] "".

(** A table whose second prefix extends the first. *)
Definition overlapping_self : TextFileCombiner := {|
  input_dir := "docs";
  output_dir := "combined_docs";
  url_patterns := [("builtin", "https://docs.n8n.io/integrations/builtin/");
                   ("core-nodes", "https://docs.n8n.io/integrations/builtin/core-nodes/")]
|}.

(** [separate], as a test. *)
Definition separateb (self : TextFileCombiner) (text_files : list string) : bool :=
  forallb (fun p => negb (existsb (String.eqb p) (output_files self))) text_files.

(** * Properties *)

(** ** The run of each method *)

Section Runs.

Implicit Types (w : world) (fs : gmap string file).

Lemma append_nil_r (s : string) : s +:+ "" = s.
Proof. induction s as [|c s IH]; [reflexivity | exact (f_equal (String c) IH)]. Qed.

Lemma append_assoc (s t u : string) : (s +:+ t) +:+ u = s +:+ (t +:+ u).
Proof. induction s as [|c s IH]; [reflexivity | exact (f_equal (String c) IH)]. Qed.

Lemma bind_run {A B} (m : M A) (k : A -> M B) w a w' :
  m w = (Return a, w') -> (m ≫= k) w = k a w'.
Proof. intros H. unfold mbind, M_bind. now rewrite H. Qed.

Lemma print_run line w :
  print line w = (Return tt, World (files w) (console w ++ [line]) (out_f w)).
Proof. reflexivity. Qed.

Lemma get_source_url_run self file_path w :
  get_source_url self file_path w =
  (Return (source_url (files w) file_path),
   World (files w) (console w ++ source_url_log (files w) file_path) (out_f w)).
Proof.
  destruct w as [fs out cur].
  unfold get_source_url, try_except, source_url, source_url_log, first_line_of,
    open_r, mbind, M_bind, f_readline, raise, print, mret, M_ret; simpl.
  destruct (fs !! file_path) as [[content|head e|e]|]; simpl;
    rewrite ?app_nil_r; try reflexivity.
  - destruct (re_match_source_url _); reflexivity.
  - destruct (has_newline _); simpl; rewrite ?app_nil_r; try reflexivity.
    destruct (re_match_source_url _); reflexivity.
Qed.

Lemma scan_run self text_files : forall acc w,
  for_fold text_files acc
    (fun '(grouped_files, other_files) file_path =>
       url ← get_source_url self file_path;
       let group := get_file_group self url in
       if truthy group
       then mret (dict_append grouped_files (default "" group) (file_path, url), other_files)
       else mret (grouped_files, other_files ++ [(file_path, url)])) w =
  (Return (scan_from self (files w) acc text_files),
   World (files w) (console w ++ scan_log (files w) text_files) (out_f w)).
Proof.
  induction text_files as [|p rest IH]; intros [grouped other] w.
  - destruct w; unfold scan_log; simpl. now rewrite app_nil_r.
  - cbn [for_fold].
    rewrite (bind_run _ _ w (place self (files w) (grouped, other) p)
               (World (files w) (console w ++ source_url_log (files w) p) (out_f w))).
    + rewrite IH. cbn [files console out_f]. unfold scan_log, scan_from. cbn [map concat fold_left].
      now rewrite app_assoc.
    + rewrite (bind_run _ _ _ _ _ (get_source_url_run self p w)).
      unfold place. cbn [fst snd]. destruct (truthy _); reflexivity.
Qed.

Lemma copy_one_run fs out cur p (url : option string) :
  try_except
    (in_f ← open_r p;
     content ← f_read in_f;
     write separator ;;
     write content ;;
     write separator)
    (fun e => print ("Error processing file " +:+ p +:+ ": " +:+ e)) (World fs out cur) =
  (Return tt,
   World fs (out ++ copy_log fs [(p, url)]) (cur +:+ member_block fs (p, url))).
Proof.
  unfold try_except, open_r, f_read, mbind, M_bind, mret, M_ret, raise, write, print,
    copy_log, member_block, text_of.
  cbn [files console out_f fst map concat].
  destruct (fs !! p) as [[content|head e|e]|]; cbn;
    rewrite ?app_nil_r, ?append_nil_r, ?append_assoc; reflexivity.
Qed.

Lemma copy_members_run members : forall w,
  copy_members members w =
  (Return tt,
   World (files w) (console w ++ copy_log (files w) members)
         (out_f w +:+ blocks (files w) members)).
Proof.
  induction members as [|[p url] rest IH]; intros [fs out cur].
  - unfold copy_log; simpl. now rewrite app_nil_r, append_nil_r.
  - unfold copy_members in *. cbn [for_each].
    rewrite (bind_run _ _ _ _ _ (copy_one_run fs out cur p url)).
    rewrite IH. cbn [files console out_f blocks]. unfold copy_log. cbn [map concat fst].
    now rewrite <- !app_assoc, append_assoc.
Qed.

Lemma run_job_run (j : job) w :
  (print (job_announce j) ;;
   with_open_w (job_path j) (write (job_header j) ;; copy_members (job_members j))) w =
  (Return tt, World (emit j (files w)) (console w ++ emit_log j (files w)) "").
Proof.
  destruct w as [fs out cur].
  unfold with_open_w, try_finally, open_w, close_w, write, print, mbind, M_bind.
  cbn [files console out_f].
  rewrite copy_members_run. cbn [files console out_f].
  unfold emit, emit_log. rewrite insert_insert_eq.
  now rewrite <- app_assoc.
Qed.

Lemma run_jobs_run (js : list job) : forall w,
  for_each js run_job w =
  (Return tt,
   World (emit_all js (files w)) (console w ++ emit_all_log js (files w))
         (last_out_f js (out_f w))).
Proof.
  induction js as [|j js IH]; intros w.
  - destruct w; simpl. now rewrite app_nil_r.
  - cbn [for_each]. rewrite (bind_run _ _ _ _ _ (run_job_run j w)).
    rewrite IH. cbn [files console out_f emit_all emit_all_log fold_left last_out_f].
    rewrite <- app_assoc. now destruct js.
Qed.

Lemma for_each_ext {A} (xs : list A) (f g : A -> M unit) :
  (forall x w, f x w = g x w) -> forall w, for_each xs f w = for_each xs g w.
Proof.
  intros Hfg. induction xs as [|x xs IH]; intros w; [reflexivity|].
  cbn [for_each]. unfold mbind, M_bind. rewrite Hfg.
  destruct (g x w) as [[[]|e] w']; [apply IH | reflexivity].
Qed.

Lemma for_each_map {A B} (h : A -> B) (xs : list A) (f : B -> M unit) :
  forall w, for_each (map h xs) f w = for_each xs (fun x => f (h x)) w.
Proof.
  induction xs as [|x xs IH]; intros w; [reflexivity|].
  cbn [for_each map]. unfold mbind, M_bind.
  destruct (f (h x) w) as [[[]|e] w']; [apply IH | reflexivity].
Qed.

Lemma group_loop_run self (grouped : list (string * bucket)) w :
  for_each grouped (fun '(group_name, files) =>
    let output_file := path_join (output_dir self) (group_name +:+ ".txt") in
    print ("Creating combined file for " +:+ group_name +:+ " with "
           +:+ str_of_nat (length files) +:+ " files") ;;
    with_open_w output_file
      (write ("### Combined Content for " +:+ group_name +:+ " ###" +:+ nl +:+ nl) ;;
       copy_members files)) w =
  for_each (map (group_job self) grouped) run_job w.
Proof.
  rewrite for_each_map. apply for_each_ext. now intros [g fs] w'.
Qed.

Lemma summary_loop_run (grouped : list (string * bucket)) : forall w,
  for_each grouped (fun '(group_name, files) =>
    print ("- " +:+ group_name +:+ ": " +:+ str_of_nat (length files) +:+ " files")) w =
  (Return tt,
   World (files w)
     (console w ++ map (fun gf : string * bucket =>
            "- " +:+ gf.1 +:+ ": " +:+ str_of_nat (length gf.2) +:+ " files") grouped)
     (out_f w)).
Proof.
  induction grouped as [|[g fs] rest IH]; intros w.
  - destruct w; simpl. now rewrite app_nil_r.
  - cbn [for_each]. rewrite (bind_run _ _ _ _ _ (print_run _ w)). rewrite IH.
    cbn [files console out_f map fst snd]. now rewrite <- app_assoc.
Qed.

Lemma emit_all_app (js1 js2 : list job) fs :
  emit_all (js1 ++ js2) fs = emit_all js2 (emit_all js1 fs).
Proof. apply fold_left_app. Qed.

Lemma emit_all_log_app (js1 js2 : list job) : forall fs,
  emit_all_log (js1 ++ js2) fs = emit_all_log js1 fs ++ emit_all_log js2 (emit_all js1 fs).
Proof.
  induction js1 as [|j js1 IH]; intros fs; [reflexivity|].
  cbn [emit_all_log app]. rewrite IH. now rewrite <- app_assoc.
Qed.

Lemma last_out_f_app (js1 js2 : list job) cur :
  last_out_f (js1 ++ js2) cur = last_out_f js2 (last_out_f js1 cur).
Proof. destruct js1, js2; reflexivity. Qed.

Theorem combine_files_run self text_files w :
  combine_files self text_files w =
  (Return tt,
   World (combined self text_files (files w))
         (console w ++ printed self text_files (files w))
         (last_out_f (jobs self (scan self (files w) text_files)) (out_f w))).
Proof.
  unfold combine_files.
  rewrite (bind_run _ _ _ _ _ (print_run _ w)).
  erewrite bind_run by apply scan_run.
  cbn [files console out_f].
  change (scan_from self (files w) ([], []) text_files) with (scan self (files w) text_files).
  destruct (scan self (files w) text_files) as [grouped other] eqn:Hb.
  erewrite bind_run; cycle 1.
  { rewrite group_loop_run. apply run_jobs_run. }
  cbn [files console out_f].
  assert (Hother : forall w1,
    (match other with
     | [] => mret tt
     | _ :: _ =>
       let output_file := path_join (output_dir self) "other_content.txt" in
       print ("Creating file for other content with "
              +:+ str_of_nat (length other) +:+ " files") ;;
       with_open_w output_file
         (write ("### Content from Other URLs ###" +:+ nl +:+ nl) ;;
          copy_members other)
     end) w1 =
    for_each (match other with [] => [] | _ :: _ => [other_job self other] end) run_job w1).
  { intros w1. destruct other as [|m ms]; [reflexivity|].
    cbn [for_each]. unfold run_job, mbind, M_bind.
    destruct (print _ w1) as [[[]|e] w2]; [|reflexivity].
    destruct (with_open_w _ _ w2) as [[[]|e] w3]; reflexivity. }
  erewrite bind_run; cycle 1.
  { rewrite Hother. apply run_jobs_run. }
  cbn [files console out_f].
  rewrite (bind_run _ _ _ _ _ (print_run _ _)).
  erewrite bind_run by apply summary_loop_run.
  rewrite print_run. cbn [files console out_f].
  unfold combined, printed, jobs, summary. rewrite Hb. cbn [fst snd].
  rewrite emit_all_app, emit_all_log_app, last_out_f_app.
  now rewrite <- !app_assoc.
Qed.

End Runs.

Section Strings.

Implicit Types (s t pre rest : string) (c : ascii).

Lemma startswith_spec s pre : startswith s pre = true <-> is_prefix pre s.
Proof.
  revert s. induction pre as [|a pre IH]; intros s.
  - split; [intros _; now exists s | reflexivity].
  - destruct s as [|b s]; cbn [startswith].
    + split; [discriminate | intros [rest H]; discriminate].
    + destruct (ascii_dec a b) as [->|Hab].
      * rewrite IH. split; intros [rest H]; exists rest.
        -- exact (f_equal (String b) H).
        -- now injection H.
      * split; [discriminate | intros [rest H]; injection H; congruence].
Qed.

Lemma startswith_refl s : startswith s s = true.
Proof. apply startswith_spec. exists "". now rewrite append_nil_r. Qed.

Lemma remove_prefix_spec pre s rest :
  remove_prefix pre s = Some rest <-> s = pre +:+ rest.
Proof.
  revert s. induction pre as [|a pre IH]; intros s.
  - cbn [remove_prefix]. change ("" +:+ rest) with rest. split; congruence.
  - change (String a pre +:+ rest) with (String a (pre +:+ rest)).
    destruct s as [|b s]; cbn [remove_prefix].
    + split; discriminate.
    + destruct (ascii_dec a b) as [->|Hab].
      * rewrite IH. split; intros H.
        -- exact (f_equal (String b) H).
        -- now injection H.
      * split; [discriminate | intros H; injection H; congruence].
Qed.

Lemma dot_run_id s : has_newline s = false -> dot_run s = s.
Proof.
  induction s as [|c s IH]; [reflexivity|].
  cbn [has_newline dot_run]. destruct (ascii_dec c LF); [discriminate|].
  intros H. now rewrite IH.
Qed.

Lemma has_newline_app pre s : has_newline (pre +:+ s) = false -> has_newline s = false.
Proof.
  induction pre as [|c pre IH]; [trivial|].
  change (String c pre +:+ s) with (String c (pre +:+ s)). cbn [has_newline].
  destruct (ascii_dec c LF); [discriminate | exact IH].
Qed.

Lemma one_line_readline s : one_line (readline s) = true.
Proof.
  induction s as [|c s IH]; [reflexivity|].
  cbn [readline]. destruct (ascii_dec c LF) as [->|Hc]; cbn [one_line].
  - now destruct (ascii_dec LF LF).
  - now destruct (ascii_dec c LF).
Qed.

Lemma one_line_lstrip s : one_line s = true -> one_line (lstrip s) = true.
Proof.
  induction s as [|c s IH]; [trivial|].
  cbn [lstrip]. destruct (isspace c); [|trivial].
  cbn [one_line]. destruct (ascii_dec c LF); [|exact IH].
  destruct (string_dec s ""); [now subst | discriminate].
Qed.

Lemma isspace_LF : isspace LF = true.
Proof. reflexivity. Qed.

Lemma has_newline_rstrip s : one_line s = true -> has_newline (rstrip s) = false.
Proof.
  induction s as [|c s IH]; [reflexivity|].
  cbn [one_line rstrip]. destruct (ascii_dec c LF) as [->|Hc].
  - destruct (string_dec s "") as [->|]; [|discriminate]. reflexivity.
  - intros H. specialize (IH H). destruct (rstrip s) as [|d r].
    + destruct (isspace c); cbn [has_newline]; [reflexivity|].
      now destruct (ascii_dec c LF).
    + cbn [has_newline] in *. now destruct (ascii_dec c LF).
Qed.

Lemma has_newline_strip_readline s : has_newline (strip (readline s)) = false.
Proof. apply has_newline_rstrip, one_line_lstrip, one_line_readline. Qed.

(** A stripped string does not end in white space. *)
Lemma rstrip_last s t c : rstrip s = t +:+ String c "" -> isspace c = false.
Proof.
  revert t. induction s as [|a s IH]; intros t.
  - destruct t; discriminate.
  - cbn [rstrip]. destruct (rstrip s) as [|d r] eqn:Hr.
    + destruct (isspace a) eqn:Ha.
      * destruct t; discriminate.
      * destruct t as [|b [|b' t]]; try discriminate. intros H. injection H. congruence.
    + destruct t as [|b t].
      * discriminate.
      * intros H. injection H as _ H. exact (IH t H).
Qed.

Lemma re_match_source_url_spec line rest :
  has_newline line = false ->
  (forall t c, line = t +:+ String c "" -> isspace c = false) ->
  re_match_source_url line = Some rest <-> line = "Source URL: " +:+ rest.
Proof.
  intros Hnl Hlast. unfold re_match_source_url.
  destruct (remove_prefix "Source URL: " line) as [rest0|] eqn:Hp.
  - apply remove_prefix_spec in Hp.
    assert (Hrun : dot_run rest0 = rest0).
    { apply dot_run_id. apply (has_newline_app "Source URL: "). now rewrite <- Hp. }
    rewrite Hrun. destruct rest0 as [|c r].
    + exfalso. specialize (Hlast "Source URL:" " "%char Hp). discriminate.
    + subst line. split; intros H; [congruence|].
      apply (inj (String.app "Source URL: ")) in H. congruence.
  - split; [discriminate|]. intros H. apply remove_prefix_spec in H. congruence.
Qed.

Lemma first_line_of_readline (fs : gmap string file) path line :
  first_line_of fs path = Return line -> exists t, line = readline t.
Proof.
  unfold first_line_of. destruct (fs !! path) as [[content|head e|e]|]; try discriminate.
  - intros [= <-]. now exists (universal_newlines content).
  - cbv zeta. destruct (has_newline _); [|discriminate]. intros [= <-]. eauto.
Qed.

Lemma source_url_spec (fs : gmap string file) path line rest :
  first_line_of fs path = Return line ->
  source_url fs path = Some rest <-> strip line = "Source URL: " +:+ rest.
Proof.
  intros Hline. unfold source_url. rewrite Hline.
  destruct (first_line_of_readline _ _ _ Hline) as [t ->].
  apply re_match_source_url_spec.
  - apply has_newline_strip_readline.
  - intros u c. apply rstrip_last.
Qed.

End Strings.

Section Buckets.

Context (self : TextFileCombiner) (fs : gmap string file).

Implicit Types (d : list (string * bucket)) (m : string * option string)
  (acc : buckets) (g k : string).

Lemma place_spec acc p :
  place self fs acc p =
  match bucket_of self (annotate fs p) with
  | Some g => (dict_append acc.1 g (annotate fs p), acc.2)
  | None => (acc.1, acc.2 ++ [annotate fs p])
  end.
Proof.
  unfold place, bucket_of, annotate. cbn [fst snd].
  now destruct (get_file_group self (source_url fs p)) as [[|c g]|].
Qed.

Lemma dict_get_append d k m g :
  dict_get (dict_append d k m) g =
  if decide (k = g) then dict_get d g ++ [m] else dict_get d g.
Proof.
  induction d as [|[k' vs] d IH]; cbn [dict_append dict_get].
  - destruct (string_dec k g), (decide (k = g)); cbn [app]; congruence.
  - destruct (string_dec k' k) as [->|Hk]; cbn [dict_get].
    + destruct (string_dec k g), (decide (k = g)); congruence.
    + destruct (string_dec k' g) as [->|Hg]; [|exact IH].
      destruct (decide (k = g)); congruence.
Qed.

Lemma dict_append_keys d k m :
  map fst (dict_append d k m) = if decide (k ∈ map fst d) then map fst d else map fst d ++ [k].
Proof.
  induction d as [|[k' vs] d IH]; cbn [dict_append map fst].
  - destruct (decide (k ∈ [])) as [H|_]; [inversion H | reflexivity].
  - destruct (string_dec k' k) as [->|Hk]; cbn [map fst].
    + destruct (decide (k ∈ k :: map fst d)) as [_|H]; [reflexivity|].
      exfalso. apply H. constructor.
    + rewrite IH. destruct (decide (k ∈ map fst d)) as [Hin|Hin].
      * destruct (decide (k ∈ k' :: map fst d)) as [_|H]; [reflexivity|].
        exfalso. apply H. now constructor.
      * destruct (decide (k ∈ k' :: map fst d)) as [H|_]; [|reflexivity].
        apply elem_of_cons in H as [->|H]; [congruence | contradiction].
Qed.

Lemma dict_append_NoDup d k m : NoDup (map fst d) -> NoDup (map fst (dict_append d k m)).
Proof.
  intros Hd. rewrite dict_append_keys. destruct (decide (k ∈ map fst d)) as [|Hk]; [exact Hd|].
  apply NoDup_app. repeat split; [exact Hd | | apply NoDup_singleton].
  intros x Hx Hx'. apply list_elem_of_singleton in Hx'. now subst.
Qed.

Lemma dict_get_elem d g (ms : bucket) :
  NoDup (map fst d) -> (g, ms) ∈ d -> dict_get d g = ms.
Proof.
  induction d as [|[k' vs] d IH]; intros Hd Hin; [inversion Hin|].
  cbn [map fst] in Hd. apply NoDup_cons in Hd as [Hk Hd].
  cbn [dict_get]. apply elem_of_cons in Hin as [Heq|Hin].
  - injection Heq as -> ->. now destruct (string_dec k' k').
  - destruct (string_dec k' g) as [->|_]; [|now apply IH].
    exfalso. apply Hk. apply list_elem_of_fmap. now exists (g, ms).
Qed.

Lemma dict_append_nonempty d k m :
  Forall (fun e : string * bucket => e.2 <> []) d ->
  Forall (fun e : string * bucket => e.2 <> []) (dict_append d k m).
Proof.
  induction 1 as [|[k' vs] d Hvs Hd IH]; cbn [dict_append].
  - constructor; [|constructor]. discriminate.
  - destruct (string_dec k' k); constructor; try assumption.
    cbn [snd]. now destruct vs.
Qed.

Lemma dict_append_members d k m :
  concat (map snd (dict_append d k m)) ≡ₚ concat (map snd d) ++ [m].
Proof.
  induction d as [|[k' vs] d IH]; cbn [dict_append]; [reflexivity|].
  destruct (string_dec k' k); cbn [map concat snd].
  - rewrite <- !app_assoc. apply Permutation_app_head. apply Permutation_app_comm.
  - rewrite IH. now rewrite app_assoc.
Qed.

(** The buckets after the grouping loop, started from [acc]. *)

Lemma scan_from_other acc text_files :
  (scan_from self fs acc text_files).2 =
  acc.2 ++ filter (fun m => bucket_of self m = None) (map (annotate fs) text_files).
Proof.
  revert acc. induction text_files as [|p rest IH]; intros acc.
  - cbn. now rewrite app_nil_r.
  - unfold scan_from in *. cbn [fold_left map]. rewrite IH, place_spec, filter_cons.
    destruct (bucket_of self (annotate fs p)) as [g|] eqn:Hb.
    + now destruct (decide (Some g = None)).
    + destruct (decide (None = None)) as [_|n]; [|congruence].
      cbn [snd]. now rewrite <- app_assoc.
Qed.

Lemma scan_from_group acc text_files g :
  dict_get (scan_from self fs acc text_files).1 g =
  dict_get acc.1 g ++ filter (fun m => bucket_of self m = Some g) (map (annotate fs) text_files).
Proof.
  revert acc. induction text_files as [|p rest IH]; intros acc.
  - cbn. now rewrite app_nil_r.
  - unfold scan_from in *. cbn [fold_left map]. rewrite IH, place_spec, filter_cons.
    destruct (bucket_of self (annotate fs p)) as [k|] eqn:Hb; cbn [fst].
    + rewrite dict_get_append. destruct (decide (k = g)) as [->|Hk].
      * destruct (decide (Some g = Some g)) as [_|n]; [|congruence].
        now rewrite <- app_assoc.
      * destruct (decide (Some k = Some g)) as [e|_]; [congruence | reflexivity].
    + now destruct (decide (None = Some g)).
Qed.

Lemma scan_from_NoDup acc text_files :
  NoDup (map fst acc.1) -> NoDup (map fst (scan_from self fs acc text_files).1).
Proof.
  revert acc. induction text_files as [|p rest IH]; intros acc Hacc; [exact Hacc|].
  unfold scan_from in *. cbn [fold_left]. apply IH. rewrite place_spec.
  destruct (bucket_of self (annotate fs p)); [|exact Hacc].
  now apply dict_append_NoDup.
Qed.

Lemma scan_from_nonempty acc text_files :
  Forall (fun e : string * bucket => e.2 <> []) acc.1 ->
  Forall (fun e : string * bucket => e.2 <> []) (scan_from self fs acc text_files).1.
Proof.
  revert acc. induction text_files as [|p rest IH]; intros acc Hacc; [exact Hacc|].
  unfold scan_from in *. cbn [fold_left]. apply IH. rewrite place_spec.
  destruct (bucket_of self (annotate fs p)); [|exact Hacc].
  now apply dict_append_nonempty.
Qed.

Lemma scan_from_members acc text_files :
  members_of (scan_from self fs acc text_files) ≡ₚ members_of acc ++ map (annotate fs) text_files.
Proof.
  revert acc. induction text_files as [|p rest IH]; intros acc.
  - cbn. now rewrite app_nil_r.
  - unfold scan_from in *. cbn [fold_left map]. rewrite IH, place_spec.
    replace (members_of acc ++ annotate fs p :: map (annotate fs) rest)
      with ((members_of acc ++ [annotate fs p]) ++ map (annotate fs) rest)
      by now rewrite <- app_assoc.
    apply Permutation_app_tail. unfold members_of.
    destruct (bucket_of self (annotate fs p)) as [g|]; cbn [fst snd].
    + rewrite dict_append_members. rewrite <- !app_assoc.
      apply Permutation_app_head. apply Permutation_app_comm.
    + now rewrite app_assoc.
Qed.

(** The buckets of a run. *)

Lemma scan_other text_files :
  (scan self fs text_files).2 =
  filter (fun m => bucket_of self m = None) (map (annotate fs) text_files).
Proof. apply scan_from_other. Qed.

Lemma scan_keys_NoDup text_files : NoDup (map fst (scan self fs text_files).1).
Proof. apply scan_from_NoDup. constructor. Qed.

Lemma scan_grouped text_files g ms :
  (g, ms) ∈ (scan self fs text_files).1 ->
  ms = filter (fun m => bucket_of self m = Some g) (map (annotate fs) text_files)
  /\ ms <> [].
Proof.
  intros Hin. split.
  - rewrite <- (dict_get_elem _ _ _ (scan_keys_NoDup text_files) Hin).
    apply (scan_from_group ([], [])).
  - assert (H := scan_from_nonempty ([], []) text_files (Forall_nil_2 _)).
    rewrite Forall_forall in H. exact (H _ Hin).
Qed.

Lemma scan_members text_files :
  members_of (scan self fs text_files) ≡ₚ map (annotate fs) text_files.
Proof. apply (scan_from_members ([], [])). Qed.

End Buckets.

Section Outputs.

Implicit Types (fs : gmap string file) (j : job) (js : list job) (ms : bucket).

Lemma text_of_ext fs1 fs2 p : fs1 !! p = fs2 !! p -> text_of fs1 p = text_of fs2 p.
Proof. unfold text_of. now intros ->. Qed.

Lemma blocks_ext fs1 fs2 ms :
  (forall m, m ∈ ms -> fs1 !! m.1 = fs2 !! m.1) -> blocks fs1 ms = blocks fs2 ms.
Proof.
  induction ms as [|m ms IH]; intros H; [reflexivity|].
  cbn [blocks]. unfold member_block.
  rewrite (text_of_ext fs1 fs2 m.1) by (apply H; constructor).
  rewrite IH; [reflexivity|]. intros m' Hm'. apply H. now constructor.
Qed.

Lemma blocks_app fs ms1 ms2 : blocks fs (ms1 ++ ms2) = blocks fs ms1 +:+ blocks fs ms2.
Proof.
  induction ms1 as [|m ms1 IH]; [reflexivity|].
  cbn [app blocks]. now rewrite IH, append_assoc.
Qed.

Lemma emit_lookup_ne j fs p : p <> job_path j -> emit j fs !! p = fs !! p.
Proof. intros Hp. unfold emit. now rewrite lookup_insert_ne. Qed.

Lemma emit_lookup j fs :
  emit j fs !! job_path j =
  Some (Text (job_header j +:+ blocks (<[job_path j := Text ""]> fs) (job_members j))).
Proof. unfold emit. now rewrite lookup_insert_eq. Qed.

(** Only the paths of the jobs change. *)
Lemma emit_all_frame js : forall fs p,
  p ∉ map job_path js -> emit_all js fs !! p = fs !! p.
Proof.
  induction js as [|j js IH]; intros fs p Hp; [reflexivity|].
  cbn [emit_all fold_left map] in *. apply not_elem_of_cons in Hp as [Hj Hp].
  fold (emit_all js (emit j fs)). rewrite IH by exact Hp. now apply emit_lookup_ne.
Qed.


(** What each output file holds after the run. *)
Lemma emit_all_lookup js1 j js2 fs :
  job_path j ∉ map job_path js2 ->
  emit_all (js1 ++ j :: js2) fs !! job_path j =
  Some (Text (job_header j
              +:+ blocks (<[job_path j := Text ""]> (emit_all js1 fs)) (job_members j))).
Proof.
  intros Hj. rewrite emit_all_app. cbn [emit_all fold_left].
  fold (emit_all js1 fs). fold (emit_all js2 (emit j (emit_all js1 fs))).
  rewrite emit_all_frame by exact Hj. apply emit_lookup.
Qed.

(** Members that are not outputs are read as the run found them. *)
Lemma blocks_separate js1 j fs :
  (forall m, m ∈ job_members j -> m.1 ∉ map job_path (js1 ++ [j])) ->
  blocks (<[job_path j := Text ""]> (emit_all js1 fs)) (job_members j)
  = blocks fs (job_members j).
Proof.
  intros Hsep. apply blocks_ext. intros m Hm. specialize (Hsep m Hm).
  rewrite map_app in Hsep. apply not_elem_of_app in Hsep as [H1 H2].
  rewrite lookup_insert_ne.
  - now apply emit_all_frame.
  - intros Heq. apply H2. rewrite <- Heq. constructor.
Qed.

(** A second pass over the same jobs rewrites what the first one wrote,
    when the first pass left every member as it found it. *)
Lemma emit_all_again js : forall fs,
  NoDup (map job_path js) ->
  (forall j m, j ∈ js -> m ∈ job_members j -> emit_all js fs !! m.1 = fs !! m.1) ->
  emit_all js (emit_all js fs) = emit_all js fs.
Proof.
  induction js as [|j js IH]; intros fs Hnd Hsame; [reflexivity|].
  cbn [map] in Hnd. apply NoDup_cons in Hnd as [Hj Hnd].
  cbn [emit_all fold_left]. fold (emit_all js (emit j fs)).
  set (F := emit_all js (emit j fs)) in *.
  assert (Hself : emit j F = F).
  { unfold emit at 1. apply insert_id.
    unfold F at 1. rewrite emit_all_frame by exact Hj. rewrite emit_lookup.
    do 3 f_equal. apply blocks_ext. intros m Hm.
    destruct (decide (job_path j = m.1)) as [Heq|Hne].
    - now rewrite Heq, !lookup_insert_eq.
    - rewrite !lookup_insert_ne by exact Hne. symmetry. apply (Hsame j m); [constructor | exact Hm]. }
  fold (emit_all js (emit j F)). rewrite Hself. unfold F. apply IH; [exact Hnd|].
  intros j' m Hj' Hm. fold F.
  destruct (decide (m.1 = job_path j)) as [Heq|Hne].
  - rewrite Heq. unfold F. rewrite emit_all_frame by exact Hj. reflexivity.
  - rewrite emit_lookup_ne by exact Hne.
    apply (Hsame j' m); [now constructor | exact Hm].
Qed.

End Outputs.

Section Jobs.

Implicit Types (self : TextFileCombiner) (fs : gmap string file) (j : job)
  (m : string * option string) (g : string).

Lemma first_match_in url (patterns : list (string * string)) g :
  first_match url patterns = Some g -> g ∈ map fst patterns.
Proof.
  induction patterns as [|[name pat] rest IH]; [discriminate|].
  cbn [first_match map fst]. destruct (startswith url pat).
  - intros [= ->]. constructor.
  - intros H. constructor. now apply IH.
Qed.

Lemma bucket_of_in_table self m g :
  bucket_of self m = Some g -> g ∈ map fst (url_patterns self).
Proof.
  unfold bucket_of, get_file_group. destruct m.2 as [[|c u]|]; try discriminate.
  destruct (first_match _ _) as [[|c' g']|] eqn:Hf; try discriminate.
  intros [= <-]. exact (first_match_in _ _ _ Hf).
Qed.

Lemma scan_keys_in_table self fs text_files g ms :
  (g, ms) ∈ (scan self fs text_files).1 -> g ∈ map fst (url_patterns self).
Proof.
  intros Hin. destruct (scan_grouped _ _ _ _ _ Hin) as [Hms Hne].
  destruct ms as [|m ms]; [congruence|].
  assert (Hm : m ∈ filter (fun m => bucket_of self m = Some g) (map (annotate fs) text_files))
    by (rewrite <- Hms; constructor).
  apply list_elem_of_filter in Hm as [Hm _]. exact (bucket_of_in_table _ _ _ Hm).
Qed.

Lemma elem_of_concat {A} (x : A) (ls : list (list A)) :
  x ∈ concat ls <-> exists l, x ∈ l /\ l ∈ ls.
Proof.
  induction ls as [|l ls IH]; cbn [concat].
  - split; [intros H; inversion H | intros [l [_ H]]; inversion H].
  - rewrite elem_of_app, IH. split.
    + intros [H|[l' [H1 H2]]]; [exists l | exists l']; split; try assumption; now constructor.
    + intros [l' [H1 H2]]. apply elem_of_cons in H2 as [->|H2]; [now left | right; eauto].
Qed.

Lemma jobs_members self (b : buckets) j m :
  j ∈ jobs self b -> m ∈ job_members j -> m ∈ members_of b.
Proof.
  unfold jobs, members_of. intros Hj Hm. apply elem_of_app in Hj as [Hj|Hj].
  - apply list_elem_of_fmap in Hj as [[g ms] [-> Hg]]. cbn [group_job job_members snd] in Hm.
    apply elem_of_app. left. apply elem_of_concat. exists ms. split; [exact Hm|].
    apply list_elem_of_fmap. now exists (g, ms).
  - destruct b.2 as [|m0 ms0] eqn:Hb; [inversion Hj|].
    apply list_elem_of_singleton in Hj as ->. cbn [other_job job_members] in Hm.
    apply elem_of_app. now right.
Qed.

(** Every member of every job is a discovered file. *)
Lemma jobs_members_discovered self fs text_files j m :
  j ∈ jobs self (scan self fs text_files) -> m ∈ job_members j ->
  m = annotate fs m.1 /\ m.1 ∈ text_files.
Proof.
  intros Hj Hm. assert (H := jobs_members _ _ _ _ Hj Hm).
  rewrite scan_members in H. apply list_elem_of_fmap in H as [p [-> Hp]]. now split.
Qed.

Lemma path_join_inj a b b' :
  startswith b "/" = false -> startswith b' "/" = false ->
  path_join a b = path_join a b' -> b = b'.
Proof.
  unfold path_join. intros -> ->.
  destruct (_ || _); intros H.
  - exact (inj (String.app a) _ _ H).
  - apply (inj (String.app a)) in H. exact (inj (String.app "/") _ _ H).
Qed.

Lemma init_names indir outdir g :
  g ∈ map fst (url_patterns (init indir outdir)) ->
  startswith (g +:+ ".txt") "/" = false /\ g +:+ ".txt" <> "other_content.txt".
Proof.
  cbn [init url_patterns map fst]. intros H.
  repeat (apply elem_of_cons in H as [->|H]); try (split; [reflexivity | discriminate]).
  inversion H.
Qed.

Lemma group_file_inj indir outdir g g' :
  let self := init indir outdir in
  g ∈ map fst (url_patterns self) -> g' ∈ map fst (url_patterns self) ->
  group_file self g = group_file self g' -> g = g'.
Proof.
  intros self Hg Hg' H. unfold group_file in H.
  apply path_join_inj in H; try (now apply (init_names indir outdir)).
  revert H. cbn [init url_patterns map fst self] in Hg, Hg'.
  repeat (apply elem_of_cons in Hg as [->|Hg]);
  repeat (apply elem_of_cons in Hg' as [->|Hg']);
  try reflexivity; try discriminate; try (now inversion Hg); now inversion Hg'.
Qed.

Lemma group_file_not_other indir outdir g :
  let self := init indir outdir in
  g ∈ map fst (url_patterns self) -> group_file self g <> other_file self.
Proof.
  intros self Hg H. destruct (init_names _ _ _ Hg) as [Hs Hne].
  apply Hne. now apply (path_join_inj (output_dir self)).
Qed.

Lemma jobs_paths self fs text_files :
  let b := scan self fs text_files in
  map job_path (jobs self b) =
  map (group_file self) (map fst b.1) ++ match b.2 with [] => [] | _ :: _ => [other_file self] end.
Proof.
  intros b. unfold jobs. rewrite map_app, !map_map. f_equal. now destruct b.2.
Qed.

(** The output files of a run are pairwise distinct. *)
Lemma jobs_paths_NoDup indir outdir fs text_files :
  let self := init indir outdir in
  NoDup (map job_path (jobs self (scan self fs text_files))).
Proof.
  intros self. rewrite jobs_paths.
  assert (Hkeys : forall g, g ∈ map fst (scan self fs text_files).1 ->
                            g ∈ map fst (url_patterns self)).
  { intros g Hg. apply list_elem_of_fmap in Hg as [[g' ms] [-> Hg]].
    exact (scan_keys_in_table _ _ _ _ _ Hg). }
  apply NoDup_app. repeat split.
  - apply NoDup_fmap_2_strong; [|apply scan_keys_NoDup].
    intros g g' Hg Hg'. apply group_file_inj; now apply Hkeys.
  - intros p Hp Hp'. apply list_elem_of_fmap in Hp as [g [-> Hg]].
    destruct (scan self fs text_files).2; [inversion Hp'|].
    apply list_elem_of_singleton in Hp'.
    now apply (group_file_not_other indir outdir g (Hkeys g Hg)).
  - destruct (scan self fs text_files).2; [constructor | apply NoDup_singleton].
Qed.

(** They are among the six paths a run may write. *)
Lemma jobs_paths_outputs self fs text_files p :
  p ∈ map job_path (jobs self (scan self fs text_files)) -> p ∈ output_files self.
Proof.
  rewrite jobs_paths. unfold output_files. intros Hp.
  apply elem_of_app in Hp as [Hp|Hp]; apply elem_of_app.
  - left. apply list_elem_of_fmap in Hp as [g [-> Hg]].
    apply list_elem_of_fmap in Hg as [[g' ms] [-> Hg]].
    apply scan_keys_in_table in Hg. apply list_elem_of_fmap in Hg as [[g pat] [Heq Hg]].
    apply list_elem_of_fmap. exists (g, pat). cbn [fst] in *. now subst.
  - right. now destruct (scan self fs text_files).2.
Qed.

End Jobs.

Section Classification.

Implicit Types (self : TextFileCombiner) (url g : string)
  (patterns : list (string * string)).

Lemma first_match_none url patterns :
  first_match url patterns = None <->
  forall e, e ∈ patterns -> ~ is_prefix e.2 url.
Proof.
  induction patterns as [|[name pat] rest IH]; cbn [first_match].
  - split; [intros _ e He; inversion He | reflexivity].
  - destruct (startswith url pat) eqn:Hs.
    + split; [discriminate|]. intros H. exfalso.
      apply (H (name, pat)); [constructor | now apply startswith_spec].
    + rewrite IH. split.
      * intros H e He. apply elem_of_cons in He as [->|He]; [|now apply H].
        cbn [snd]. rewrite <- startswith_spec. congruence.
      * intros H e He. apply H. now constructor.
Qed.

Lemma first_match_some url patterns g :
  first_match url patterns = Some g <->
  exists before pattern after,
    patterns = before ++ (g, pattern) :: after
    /\ is_prefix pattern url
    /\ forall e, e ∈ before -> ~ is_prefix e.2 url.
Proof.
  induction patterns as [|[name pat] rest IH]; cbn [first_match].
  - split; [discriminate|]. intros (before & pattern & after & H & _).
    now destruct before.
  - destruct (startswith url pat) eqn:Hs.
    + split.
      * intros [= ->]. exists [], pat, rest. repeat split.
        -- now apply startswith_spec.
        -- intros e He. inversion He.
      * intros (before & pattern & after & H & Hp & Hb).
        destruct before as [|e before]; [now injection H as -> _ _|].
        injection H as <- _. exfalso. apply (Hb (name, pat)); [constructor|].
        now apply startswith_spec.
    + rewrite IH. split.
      * intros (before & pattern & after & -> & Hp & Hb).
        exists ((name, pat) :: before), pattern, after. repeat split; [exact Hp|].
        intros e He. apply elem_of_cons in He as [->|He]; [|now apply Hb].
        cbn [snd]. rewrite <- startswith_spec. congruence.
      * intros (before & pattern & after & H & Hp & Hb).
        destruct before as [|e before].
        -- injection H as -> -> _. apply startswith_spec in Hp. congruence.
        -- injection H as _ ->. exists before, pattern, after. repeat split; [exact Hp|].
           intros e' He'. apply Hb. now constructor.
Qed.

End Classification.

Section Extraction.

Implicit Types (self : TextFileCombiner) (w : world).

Lemma world_eta w : World (files w) (console w) (out_f w) = w.
Proof. now destruct w. Qed.

Lemma get_source_url_returns self file_path w line :
  first_line_of (files w) file_path = Return line ->
  get_source_url self file_path w = (Return (source_url (files w) file_path), w).
Proof.
  intros H. rewrite get_source_url_run. unfold source_url_log. rewrite H.
  now rewrite app_nil_r, world_eta.
Qed.

Lemma get_source_url_raises self file_path w e :
  first_line_of (files w) file_path = Raise e ->
  get_source_url self file_path w =
  (Return None,
   World (files w) (console w ++ ["Error reading file " +:+ file_path +:+ ": " +:+ e])
         (out_f w)).
Proof.
  intros H. rewrite get_source_url_run. unfold source_url, source_url_log. now rewrite H.
Qed.

End Extraction.

Section WholeRun.

Implicit Types (self : TextFileCombiner) (w : world) (fs : gmap string file)
  (g : string) (ms : bucket) (j : job).

Lemma combine_files_returns self text_files w : (combine_files self text_files w).1 = Return tt.
Proof. now rewrite combine_files_run. Qed.

Lemma combine_files_files self text_files w :
  files (combine_files self text_files w).2 = combined self text_files (files w).
Proof. now rewrite combine_files_run. Qed.

Lemma combine_files_console self text_files w :
  console (combine_files self text_files w).2 = console w ++ printed self text_files (files w).
Proof. now rewrite combine_files_run. Qed.

Lemma scan_other_bucket self fs text_files :
  (scan self fs text_files).2 = other_bucket self fs text_files.
Proof. apply scan_other. Qed.

Lemma dict_get_in (d : list (string * bucket)) g :
  dict_get d g <> [] -> (g, dict_get d g) ∈ d.
Proof.
  induction d as [|[k vs] d IH]; cbn [dict_get]; [congruence|].
  destruct (string_dec k g) as [->|_]; intros H; [constructor|].
  constructor. now apply IH.
Qed.

Lemma scan_group_bucket self fs text_files g ms :
  (g, ms) ∈ (scan self fs text_files).1 <->
  ms = group_bucket self fs text_files g /\ ms <> [].
Proof.
  split; [apply scan_grouped|]. intros [-> Hne].
  assert (H := scan_from_group self fs ([], []) text_files g).
  cbn [fst dict_get app] in H. fold (scan self fs text_files) in H.
  fold (group_bucket self fs text_files g) in H. rewrite <- H in *.
  now apply dict_get_in.
Qed.

Lemma group_job_in self fs text_files g :
  group_bucket self fs text_files g <> [] ->
  group_job self (g, group_bucket self fs text_files g) ∈ jobs self (scan self fs text_files).
Proof.
  intros Hne. unfold jobs. apply elem_of_app. left.
  apply list_elem_of_fmap. eexists. split; [reflexivity|].
  now apply scan_group_bucket.
Qed.

Lemma other_job_in self fs text_files :
  other_bucket self fs text_files <> [] ->
  other_job self (other_bucket self fs text_files) ∈ jobs self (scan self fs text_files).
Proof.
  intros Hne. unfold jobs. apply elem_of_app. right.
  rewrite scan_other_bucket. destruct (other_bucket self fs text_files); [congruence|].
  constructor.
Qed.

(** The paths written by a run are those of its non-empty buckets. *)
Lemma jobs_paths_buckets self fs text_files p :
  p ∈ map job_path (jobs self (scan self fs text_files)) ->
  (exists g, group_bucket self fs text_files g <> [] /\ p = group_file self g)
  \/ (other_bucket self fs text_files <> [] /\ p = other_file self).
Proof.
  rewrite jobs_paths, scan_other_bucket. intros Hp. apply elem_of_app in Hp as [Hp|Hp].
  - left. apply list_elem_of_fmap in Hp as [g [-> Hg]].
    apply list_elem_of_fmap in Hg as [[g' ms] [-> Hg]].
    apply scan_group_bucket in Hg as [-> Hne]. now exists g'.
  - right. destruct (other_bucket self fs text_files); [inversion Hp|].
    apply list_elem_of_singleton in Hp. now split.
Qed.

(** What an output file holds when no input is an output. *)
Lemma combined_lookup_job indir outdir fs text_files j :
  let self := init indir outdir in
  separate self text_files ->
  j ∈ jobs self (scan self fs text_files) ->
  combined self text_files fs !! job_path j
  = Some (Text (job_header j +:+ blocks fs (job_members j))).
Proof.
  intros self Hsep Hj. unfold combined.
  assert (Hnd := jobs_paths_NoDup indir outdir fs text_files). cbv zeta in Hnd. fold self in Hnd.
  assert (Hmem := fun m => jobs_members_discovered self fs text_files j m Hj).
  assert (Hout := jobs_paths_outputs self fs text_files).
  destruct (list_elem_of_split _ _ Hj) as (js1 & js2 & Hjs). rewrite Hjs in *.
  rewrite map_app in Hnd. cbn [map] in Hnd.
  apply NoDup_app in Hnd as (_ & _ & Hnd). apply NoDup_cons in Hnd as [Hnotin _].
  rewrite emit_all_lookup by exact Hnotin. do 3 f_equal.
  apply blocks_separate. intros m Hm Hin.
  destruct (Hmem m Hm) as [_ Htf]. apply (Hsep _ Htf). apply Hout.
  rewrite map_app in *. cbn [map] in *.
  apply elem_of_app in Hin as [Hin|Hin]; apply elem_of_app; [now left | right].
  apply list_elem_of_singleton in Hin as ->. constructor.
Qed.

Lemma source_url_ext fs1 fs2 p : fs1 !! p = fs2 !! p -> source_url fs1 p = source_url fs2 p.
Proof. unfold source_url, first_line_of. now intros ->. Qed.

Lemma scan_from_ext self fs1 fs2 text_files : forall acc,
  (forall p, p ∈ text_files -> fs1 !! p = fs2 !! p) ->
  scan_from self fs1 acc text_files = scan_from self fs2 acc text_files.
Proof.
  induction text_files as [|p rest IH]; intros acc H; [reflexivity|].
  unfold scan_from in *. cbn [fold_left].
  assert (Hp : place self fs1 acc p = place self fs2 acc p).
  { unfold place. now rewrite (source_url_ext fs1 fs2 p) by (apply H; constructor). }
  rewrite Hp. apply IH. intros q Hq. apply H. now constructor.
Qed.

End WholeRun.

Section BlockFacts.

Implicit Types (fs : gmap string file) (m : string * option string).

Lemma member_block_text fs m content :
  fs !! m.1 = Some (Text content) ->
  member_block fs m = separator +:+ universal_newlines content +:+ separator.
Proof. unfold member_block, text_of. now intros ->. Qed.

Lemma member_block_failed fs m e : text_of fs m.1 = Raise e -> member_block fs m = "".
Proof. unfold member_block. now intros ->. Qed.

Lemma repeat_char_length c n : String.length (repeat_char c n) = n.
Proof. induction n as [|n IH]; cbn; [reflexivity | now rewrite IH]. Qed.

Lemma in_bucket_iff self fs text_files p (k : option string) :
  p ∈ text_files ->
  in_bucket self fs text_files k (annotate fs p) <-> k = bucket_of self (annotate fs p).
Proof.
  intros Hp. assert (Hin : annotate fs p ∈ map (annotate fs) text_files).
  { apply list_elem_of_fmap. now exists p. }
  unfold in_bucket, group_bucket, other_bucket.
  destruct k as [g|]; rewrite list_elem_of_filter;
    (split; [intros [H _]; now symmetry | intros H; split; [now symmetry | exact Hin]]).
Qed.

End BlockFacts.

Section Failures.

Implicit Types (self : TextFileCombiner) (w : world) (fs : gmap string file).

Lemma scan_log_raise fs text_files p e :
  p ∈ text_files -> first_line_of fs p = Raise e ->
  ("Error reading file " +:+ p +:+ ": " +:+ e) ∈ scan_log fs text_files.
Proof.
  intros Hp He. unfold scan_log. apply elem_of_concat.
  exists (source_url_log fs p). split.
  - unfold source_url_log. rewrite He. constructor.
  - apply list_elem_of_fmap. now exists p.
Qed.

Lemma copy_log_app fs (ms1 ms2 : bucket) :
  copy_log fs (ms1 ++ ms2) = copy_log fs ms1 ++ copy_log fs ms2.
Proof. unfold copy_log. now rewrite map_app, concat_app. Qed.

Lemma copy_log_failed fs p (url : option string) e :
  text_of fs p = Raise e ->
  copy_log fs [(p, url)] = ["Error processing file " +:+ p +:+ ": " +:+ e].
Proof. unfold copy_log. cbn [map concat fst]. now intros ->. Qed.

End Failures.

Section Samples.

Lemma separateb_correct self text_files :
  separateb self text_files = true -> separate self text_files.
Proof.
  unfold separateb, separate. rewrite forallb_forall. intros H p Hp Hout.
  apply list_elem_of_In in Hp. specialize (H p Hp). apply negb_true_iff in H.
  assert (Hex : existsb (String.eqb p) (output_files self) = true); [|congruence].
  apply existsb_exists. exists p. split; [now apply list_elem_of_In | apply String.eqb_refl].
Qed.

Lemma rstrip_spaces (spaces : string) : lstrip spaces = "" -> rstrip spaces = "".
Proof.
  induction spaces as [|c s IH]; [reflexivity|].
  cbn [lstrip rstrip]. destruct (isspace c); [|discriminate].
  intros H. now rewrite (IH H).
Qed.

Lemma rstrip_app_spaces (s spaces : string) :
  rstrip spaces = "" -> rstrip (s +:+ spaces) = rstrip s.
Proof.
  intros H. induction s as [|c s IH]; [exact H|].
  change (String c s +:+ spaces) with (String c (s +:+ spaces)).
  cbn [rstrip]. now rewrite IH.
Qed.

(** Nothing but white space after the marker: the stripped line is the
    marker alone. *)
Lemma strip_marker_spaces (spaces : string) :
  lstrip spaces = "" -> strip ("Source URL:" +:+ spaces) = "Source URL:".
Proof.
  intros Hsp. unfold strip.
  change (lstrip ("Source URL:" +:+ spaces)) with ("Source URL:" +:+ spaces).
  now rewrite rstrip_app_spaces by now apply rstrip_spaces.
Qed.

End Samples.

Section StoredLines.

Implicit Types (line e body : string).

Lemma has_line_break_LF line : has_line_break line = false -> has_newline line = false.
Proof.
  induction line as [|c line IH]; [reflexivity|].
  cbn [has_line_break has_newline]. destruct (ascii_dec c LF); [discriminate|].
  destruct (ascii_dec c CR); [discriminate | exact IH].
Qed.

(** A stored line, whatever ends it, is delivered ended by a line feed. *)
Lemma readline_stored line e body :
  has_line_break line = false -> line_end e ->
  readline (universal_newlines (line +:+ e +:+ body)) = line +:+ nl.
Proof.
  intros Hline He. induction line as [|c line IH].
  - change ("" +:+ e +:+ body) with (e +:+ body). destruct He as [->|[->| ->]].
    + reflexivity.
    + change (cr +:+ body) with (String CR body). cbn [universal_newlines].
      destruct (ascii_dec CR CR) as [_|n]; [|congruence].
      destruct body as [|c' body']; [reflexivity|]. now destruct (ascii_dec c' LF).
    + reflexivity.
  - change (String c line +:+ e +:+ body) with (String c (line +:+ e +:+ body)).
    change (String c line +:+ nl) with (String c (line +:+ nl)).
    cbn [has_line_break] in Hline.
    destruct (ascii_dec c LF) as [|Hlf]; [discriminate|].
    destruct (ascii_dec c CR) as [|Hcr]; [discriminate|].
    cbn [universal_newlines]. destruct (ascii_dec c CR); [contradiction|].
    cbn [readline]. destruct (ascii_dec c LF); [contradiction|].
    now rewrite (IH Hline).
Qed.

Lemma first_line_of_stored (fs : gmap string file) path line e body :
  has_line_break line = false -> line_end e ->
  fs !! path = Some (Text (line +:+ e +:+ body)) ->
  first_line_of fs path = Return (line +:+ nl).
Proof.
  intros Hline He Hfile. unfold first_line_of. rewrite Hfile.
  now rewrite readline_stored.
Qed.

End StoredLines.

Section Occurrence.

Lemma contains_unfold t s :
  contains t s =
  if startswith t s then true
  else match t with
       | EmptyString => false
       | String _ t' => contains t' s
       end.
Proof. now destruct t. Qed.

Lemma occurs_contains s t : occurs s t -> contains t s = true.
Proof.
  intros (before & after & ->). induction before as [|c before IH]; rewrite contains_unfold.
  - change ("" +:+ s +:+ after) with (s +:+ after).
    assert (H : startswith (s +:+ after) s = true) by (apply startswith_spec; now exists after).
    now rewrite H.
  - change (String c before +:+ s +:+ after) with (String c (before +:+ s +:+ after)).
    destruct (startswith _ s); [reflexivity | exact IH].
Qed.

Lemma not_occurs s t : contains t s = false -> ~ occurs s t.
Proof. intros H Ho. apply occurs_contains in Ho. congruence. Qed.

End Occurrence.

(** * The claims *)

(** C1, as the code has it: the buckets of a run are the per-group buckets
    and the other bucket of the classification; every discovered file is in
    the bucket of its classification and in no other, and the buckets
    together hold the discovered files once each; every bucket has an output
    file of its own.  When no discovered file is itself an output file, each
    of these files holds the header and then one block per member: the text
    of the member as it is read, between two separators, for a member that
    is read, nothing for a member whose read fails. *)
Theorem combine_files_partition
    (indir outdir : string) (text_files : list string) (w : world) :
  let self := init indir outdir in
  let fs := files w in
  let b := scan self fs text_files in
  (b.2 = other_bucket self fs text_files
   /\ forall g ms, (g, ms) ∈ b.1 <-> ms = group_bucket self fs text_files g /\ ms <> [])
  /\ (forall p k, p ∈ text_files ->
        in_bucket self fs text_files k (annotate fs p) <-> k = bucket_of self (annotate fs p))
  /\ members_of b ≡ₚ map (annotate fs) text_files
  /\ NoDup (map job_path (jobs self b))
  /\ (separate self text_files ->
      forall j, j ∈ jobs self b ->
        files (combine_files self text_files w).2 !! job_path j
        = Some (Text (job_header j +:+ blocks fs (job_members j))))
  /\ (forall m content, fs !! m.1 = Some (Text content) ->
        member_block fs m = separator +:+ universal_newlines content +:+ separator)
  /\ (forall m e, text_of fs m.1 = Raise e -> member_block fs m = "").
Proof.
  intros self fs b.
  split; [split|split; [|split; [|split; [|split; [|split]]]]].
  - apply scan_other_bucket.
  - intros g ms. apply scan_group_bucket.
  - intros p k Hp. now apply in_bucket_iff.
  - apply scan_members.
  - apply (jobs_paths_NoDup indir outdir).
  - intros Hsep j Hj. rewrite combine_files_files.
    now apply (combined_lookup_job indir outdir).
  - intros m content. apply member_block_text.
  - intros m e. apply member_block_failed.
Qed.

Lemma combine_files_partition_witness :
  separate scenario_self scenario_inputs
  /\ forall j, j ∈ jobs scenario_self (scan scenario_self scenario_files scenario_inputs) ->
       files (combine_files scenario_self scenario_inputs scenario_world).2 !! job_path j
       = Some (Text (job_header j +:+ blocks scenario_files (job_members j))).
Proof.
  assert (Hsep : separate scenario_self scenario_inputs)
    by (apply separateb_correct; vm_compute; reflexivity).
  split; [exact Hsep|].
  exact (proj1 (proj2 (proj2 (proj2 (proj2
    (combine_files_partition "docs" "combined_docs" scenario_inputs scenario_world)))))
    Hsep).
Defined.

(** C1, as stated, fails when a discovered file bears the name of an output
    file.  In the shared directory [d/core-nodes.txt] is of the app nodes
    and is read without failure, but only after the bucket of the core
    nodes has been written over it: its own text is in none of the three
    files the run writes. *)
Lemma combine_files_partition_shared_directory :
  let w' := (combine_files shared_self shared_inputs shared_world).2 in
  let lost := "Source URL: https://docs.n8n.io/integrations/builtin/app-nodes/y"
              +:+ nl +:+ "B" in
  let core_nodes := group_header "core-nodes" +:+ separator
                    +:+ ("Source URL: https://docs.n8n.io/integrations/builtin/core-nodes/x"
                         +:+ nl +:+ "A")
                    +:+ separator in
  "d/core-nodes.txt" ∈ shared_inputs
  /\ text_of shared_files "d/core-nodes.txt" = Return lost
  /\ in_bucket shared_self shared_files shared_inputs (Some "app-nodes")
       (annotate shared_files "d/core-nodes.txt")
  /\ map job_path (jobs shared_self (scan shared_self shared_files shared_inputs))
     = ["d/core-nodes.txt"; "d/app-nodes.txt"; "d/other_content.txt"]
  /\ files w' !! "d/app-nodes.txt"
     = Some (Text (group_header "app-nodes" +:+ separator +:+ core_nodes +:+ separator))
  /\ forall p content,
       p ∈ ["d/core-nodes.txt"; "d/app-nodes.txt"; "d/other_content.txt"] ->
       files w' !! p = Some (Text content) -> ~ occurs lost content.
Proof.
  intros w' lost core_nodes. repeat split.
  - unfold shared_inputs. repeat constructor.
  - vm_compute. repeat constructor.
  - intros p content Hp Hc. apply not_occurs.
    repeat (apply elem_of_cons in Hp as [->|Hp]);
      try (vm_compute in Hc; injection Hc as <-; vm_compute; reflexivity).
    inversion Hp.
Qed.

(** C2, as the code has it: [get_source_url] reads the first line only, as
    the handle delivers it (ended by a line feed, a carriage return or
    both), and strips white space at both of its ends; when what is left is
    [Source URL: ] followed by a remainder it returns that remainder (which
    is never empty), and [None] otherwise, leaving files and console as they
    were.  When the file cannot be opened or its first line cannot be read,
    it prints one line carrying the path and the error and returns [None]. *)
Theorem get_source_url_first_line (self : TextFileCombiner) (file_path : string) (w : world) :
  match first_line_of (files w) file_path with
  | Return line =>
      exists url,
        get_source_url self file_path w = (Return url, w)
        /\ (forall rest, url = Some rest <-> strip line = "Source URL: " +:+ rest)
        /\ url <> Some ""
  | Raise e =>
      get_source_url self file_path w =
      (Return None,
       World (files w) (console w ++ ["Error reading file " +:+ file_path +:+ ": " +:+ e])
             (out_f w))
  end
  /\ forall line e body,
       has_line_break line = false -> line_end e ->
       files w !! file_path = Some (Text (line +:+ e +:+ body)) ->
       first_line_of (files w) file_path = Return (line +:+ nl).
Proof.
  split; [|intros line e body; apply first_line_of_stored].
  destruct (first_line_of (files w) file_path) as [line|e] eqn:Hline.
  - exists (source_url (files w) file_path). split; [|split].
    + exact (get_source_url_returns self _ _ _ Hline).
    + intros rest. exact (source_url_spec _ _ _ _ Hline).
    + intros H. apply (source_url_spec _ _ _ _ Hline) in H.
      assert (Hsp := rstrip_last (lstrip line) "Source URL:" " "%char H). discriminate.
  - exact (get_source_url_raises self _ _ _ Hline).
Qed.

Lemma get_source_url_first_line_witness :
  let w := World {["docs/1.txt" :=
                    Text ("Source URL: https://docs.n8n.io/integrations/builtin/core-nodes/x"
                          +:+ cr +:+ "HELLO" +:+ nl)]} [] "" in
  first_line_of (files w) "docs/1.txt"
  = Return ("Source URL: https://docs.n8n.io/integrations/builtin/core-nodes/x" +:+ nl).
Proof.
  intros w.
  apply (proj2 (get_source_url_first_line scenario_self "docs/1.txt" w)
           "Source URL: https://docs.n8n.io/integrations/builtin/core-nodes/x" cr
           ("HELLO" +:+ nl)).
  - vm_compute. reflexivity.
  - right. now left.
  - vm_compute. reflexivity.
Defined.

(** C2, as stated, fails: with white space before [Source URL:] on the first
    line the code still returns the URL, where stripping trailing white
    space only and matching at the start of the line gives [None]. *)
Lemma get_source_url_leading_space :
  let w := World {["docs/a.txt" := Text (" Source URL: https://docs.n8n.io/x" +:+ nl +:+ "body")]} [] "" in
  (get_source_url (init "docs" "combined_docs") "docs/a.txt" w).1
    = Return (Some "https://docs.n8n.io/x")
  /\ extractSourceURL (files w) "docs/a.txt" = None
  /\ (get_source_url (init "docs" "combined_docs") "docs/a.txt" w).1
       <> Return (extractSourceURL (files w) "docs/a.txt").
Proof. vm_compute. repeat split; discriminate. Qed.

(** C3: [get_file_group] walks the table in declaration order and answers
    the first group whose prefix is a literal prefix of the URL; it answers
    [None] for an absent or empty URL and when no prefix matches, so an
    earlier entry wins over a later one that would match too.  The table of
    a combiner is the five entries of [__init__], in that order. *)
Theorem get_file_group_first_match (self : TextFileCombiner) :
  get_file_group self None = None
  /\ get_file_group self (Some "") = None
  /\ (forall url g, url <> "" ->
        get_file_group self (Some url) = Some g <->
        exists before pattern after,
          url_patterns self = before ++ (g, pattern) :: after
          /\ is_prefix pattern url
          /\ forall e, e ∈ before -> ~ is_prefix e.2 url)
  /\ (forall url,
        get_file_group self (Some url) = None <->
        url = "" \/ forall e, e ∈ url_patterns self -> ~ is_prefix e.2 url)
  /\ forall indir outdir,
       url_patterns (init indir outdir) =
       [("core-nodes", "https://docs.n8n.io/integrations/builtin/core-nodes/");
        ("app-nodes", "https://docs.n8n.io/integrations/builtin/app-nodes/");
        ("trigger-nodes", "https://docs.n8n.io/integrations/builtin/trigger-nodes/");
        ("cluster-nodes", "https://docs.n8n.io/integrations/builtin/cluster-nodes/");
        ("credentials", "https://docs.n8n.io/integrations/builtin/credentials/")].
Proof.
  repeat split; try reflexivity.
  - destruct url as [|c u]; [congruence|]. apply first_match_some.
  - destruct url as [|c u]; [congruence|]. apply first_match_some.
  - destruct url as [|c u]; [now left|]. intros H. right. now apply first_match_none.
  - destruct url as [|c u]; [reflexivity|]. intros [H|H]; [discriminate|].
    now apply first_match_none.
Qed.

Lemma get_file_group_first_match_witness :
  "https://docs.n8n.io/integrations/builtin/app-nodes/foo" <> ""
  /\ exists before pattern after,
       url_patterns scenario_self = before ++ ("app-nodes", pattern) :: after
       /\ is_prefix pattern "https://docs.n8n.io/integrations/builtin/app-nodes/foo"
       /\ forall e, e ∈ before ->
            ~ is_prefix e.2 "https://docs.n8n.io/integrations/builtin/app-nodes/foo".
Proof.
  assert (Hne : "https://docs.n8n.io/integrations/builtin/app-nodes/foo" <> "") by discriminate.
  split; [exact Hne|].
  apply (proj1 (proj2 (proj2 (get_file_group_first_match scenario_self))) _ _ Hne).
  reflexivity.
Defined.

(** C4, as the code has it: when no discovered file is itself an output
    file, a group whose bucket is not empty gets the file [<group>.txt] of
    the output directory, created or truncated; it holds the header line, a
    blank line, and then for every member in enumeration order a line feed
    and a line of 80 [=], the whole text of the member as it is read (line
    ends turned into line feeds, nothing stripped), a line feed and a line of
    80 [=]; a member whose read fails adds nothing. *)
Theorem group_output_file
    (indir outdir : string) (text_files : list string) (w : world) (g : string) :
  let self := init indir outdir in
  let fs := files w in
  let members := group_bucket self fs text_files g in
  separate self text_files ->
  members <> [] ->
  files (combine_files self text_files w).2 !! path_join outdir (g +:+ ".txt")
  = Some (Text (("### Combined Content for " +:+ g +:+ " ###" +:+ nl +:+ nl)
                +:+ blocks fs members))
  /\ (forall m content, fs !! m.1 = Some (Text content) ->
        member_block fs m
        = (nl +:+ rule_line "=" 80) +:+ universal_newlines content
          +:+ (nl +:+ rule_line "=" 80))
  /\ (forall m e, text_of fs m.1 = Raise e -> member_block fs m = "")
  /\ String.length (repeat_char "=" 80) = 80.
Proof.
  intros self fs members Hsep Hne. split; [|split; [|split]].
  - rewrite combine_files_files.
    exact (combined_lookup_job indir outdir fs text_files _ Hsep
             (group_job_in self fs text_files g Hne)).
  - intros m content. apply member_block_text.
  - intros m e. apply member_block_failed.
  - apply repeat_char_length.
Qed.

Lemma group_output_file_witness :
  separate scenario_self scenario_inputs
  /\ group_bucket scenario_self scenario_files scenario_inputs "core-nodes" <> []
  /\ files (combine_files scenario_self scenario_inputs scenario_world).2
       !! path_join "combined_docs" ("core-nodes" +:+ ".txt")
     = Some (Text (("### Combined Content for " +:+ "core-nodes" +:+ " ###" +:+ nl +:+ nl)
                   +:+ blocks scenario_files
                         (group_bucket scenario_self scenario_files scenario_inputs
                            "core-nodes"))).
Proof.
  assert (Hsep : separate scenario_self scenario_inputs)
    by (apply separateb_correct; vm_compute; reflexivity).
  assert (Hne : group_bucket scenario_self scenario_files scenario_inputs "core-nodes" <> [])
    by (vm_compute; discriminate).
  split; [exact Hsep | split; [exact Hne|]].
  exact (proj1 (group_output_file "docs" "combined_docs" scenario_inputs scenario_world
                  "core-nodes" Hsep Hne)).
Defined.

(** C4, as stated, fails in three ways.  A member stored with ["\r\n"] line
    ends is written with line feeds, so its raw content is not in the
    output.  A member that bears the name of an output file written before
    is read after it has been overwritten.  A member whose read fails gets
    no delimiter line at all. *)
Lemma group_output_file_not_raw :
  (group_bucket scenario_self (files crlf_world) ["docs/1.txt"] "core-nodes"
     = [("docs/1.txt", Some "https://docs.n8n.io/integrations/builtin/core-nodes/x")]
   /\ files crlf_world !! "docs/1.txt" = Some (Text crlf_text)
   /\ files (combine_files scenario_self ["docs/1.txt"] crlf_world).2
        !! "combined_docs/core-nodes.txt"
      = Some (Text (group_header "core-nodes" +:+ separator
                    +:+ ("Source URL: https://docs.n8n.io/integrations/builtin/core-nodes/x"
                         +:+ nl +:+ "HELLO" +:+ nl)
                    +:+ separator))
   /\ forall content,
        files (combine_files scenario_self ["docs/1.txt"] crlf_world).2
          !! "combined_docs/core-nodes.txt" = Some (Text content) ->
        ~ occurs crlf_text content)
  /\ (group_bucket shared_self shared_files shared_inputs "app-nodes"
        = [("d/core-nodes.txt", Some "https://docs.n8n.io/integrations/builtin/app-nodes/y")]
      /\ files shared_world !! "d/core-nodes.txt"
         = Some (Text ("Source URL: https://docs.n8n.io/integrations/builtin/app-nodes/y"
                       +:+ nl +:+ "B"))
      /\ forall content,
           files (combine_files shared_self shared_inputs shared_world).2 !! "d/app-nodes.txt"
             = Some (Text content) ->
           ~ occurs ("Source URL: https://docs.n8n.io/integrations/builtin/app-nodes/y"
                     +:+ nl +:+ "B") content)
  /\ (group_bucket scenario_self damaged_files damaged_inputs "app-nodes"
        = [("docs/5.txt", Some "https://docs.n8n.io/integrations/builtin/app-nodes/z")]
      /\ files (combine_files scenario_self damaged_inputs damaged_world).2
           !! "combined_docs/app-nodes.txt"
         = Some (Text (group_header "app-nodes"))
      /\ ~ occurs (repeat_char "=" 80) (group_header "app-nodes")).
Proof.
  split; [|split].
  - split; [vm_compute; reflexivity | split; [vm_compute; reflexivity | split]].
    + vm_compute. reflexivity.
    + intros content Hc. apply not_occurs.
      vm_compute in Hc. injection Hc as <-. vm_compute. reflexivity.
  - split; [vm_compute; reflexivity | split; [vm_compute; reflexivity|]].
    intros content Hc. apply not_occurs.
    vm_compute in Hc. injection Hc as <-. vm_compute. reflexivity.
  - split; [vm_compute; reflexivity | split; [vm_compute; reflexivity|]].
    apply not_occurs. vm_compute. reflexivity.
Qed.

(** C5: when the first run has left the discovered files as it found them,
    a second run over the same files leaves every file, hence every output
    file, exactly as the first run did. *)
Theorem combine_files_twice (indir outdir : string) (text_files : list string) (w : world) :
  let self := init indir outdir in
  let w1 := (combine_files self text_files w).2 in
  let w2 := (combine_files self text_files w1).2 in
  (forall p, p ∈ text_files -> files w1 !! p = files w !! p) ->
  (combine_files self text_files w1).1 = Return tt /\ files w2 = files w1.
Proof.
  intros self w1 w2 Hsame. split; [apply combine_files_returns|].
  unfold w2, w1 in *. rewrite !combine_files_files in *.
  set (fs := files w) in *. unfold combined at 1.
  assert (Hscan : scan self (combined self text_files fs) text_files = scan self fs text_files)
    by (apply scan_from_ext; exact Hsame).
  rewrite Hscan. unfold combined. apply emit_all_again.
  - apply (jobs_paths_NoDup indir outdir).
  - intros j m Hj Hm. apply Hsame.
    now destruct (jobs_members_discovered self fs text_files j m Hj Hm).
Qed.

Lemma combine_files_twice_witness :
  let w1 := (combine_files scenario_self scenario_inputs scenario_world).2 in
  (forall p, p ∈ scenario_inputs -> files w1 !! p = files scenario_world !! p)
  /\ files (combine_files scenario_self scenario_inputs w1).2 = files w1.
Proof.
  intros w1.
  assert (Hsame : forall p, p ∈ scenario_inputs -> files w1 !! p = files scenario_world !! p).
  { intros p Hp. unfold scenario_inputs in Hp.
    repeat (apply elem_of_cons in Hp as [->|Hp]); try (vm_compute; reflexivity).
    inversion Hp. }
  split; [exact Hsame|].
  exact (proj2 (combine_files_twice "docs" "combined_docs" scenario_inputs scenario_world Hsame)).
Defined.

(** C6: a run always returns.  A file whose first line cannot be read makes
    [get_source_url] print one line and answer [None], and the file goes to
    the other bucket.  A member whose read fails in the copy loop gets one
    line printed and nothing written, and the loop goes on with the members
    after it. *)
Theorem read_failures_are_not_fatal
    (self : TextFileCombiner) (text_files : list string) (w : world) :
  (combine_files self text_files w).1 = Return tt
  /\ (forall p e, first_line_of (files w) p = Raise e ->
        get_source_url self p w =
        (Return None,
         World (files w) (console w ++ ["Error reading file " +:+ p +:+ ": " +:+ e]) (out_f w))
        /\ (p ∈ text_files ->
            (p, None) ∈ other_bucket self (files w) text_files
            /\ ("Error reading file " +:+ p +:+ ": " +:+ e)
                 ∈ console (combine_files self text_files w).2))
  /\ (forall before p url after e w0, text_of (files w0) p = Raise e ->
        copy_members (before ++ (p, url) :: after) w0 =
        (Return tt,
         World (files w0)
               (console w0 ++ copy_log (files w0) before
                  ++ ["Error processing file " +:+ p +:+ ": " +:+ e]
                  ++ copy_log (files w0) after)
               (out_f w0 +:+ blocks (files w0) before +:+ blocks (files w0) after))).
Proof.
  split; [apply combine_files_returns | split].
  - intros p e He. split; [exact (get_source_url_raises self p w e He)|].
    intros Hp. split.
    + apply list_elem_of_filter. split.
      * reflexivity.
      * apply list_elem_of_fmap. exists p. split; [|exact Hp].
        unfold annotate, source_url. now rewrite He.
    + rewrite combine_files_console. unfold printed.
      apply elem_of_app. right. apply elem_of_app. right. apply elem_of_app. left.
      now apply scan_log_raise.
  - intros before p url after e w0 He. rewrite copy_members_run.
    change ((p, url) :: after) with ([(p, url)] ++ after).
    rewrite !copy_log_app, !blocks_app, (copy_log_failed _ _ _ _ He).
    cbn [blocks]. rewrite (member_block_failed (files w0) (p, url) e He).
    reflexivity.
Qed.

Lemma read_failures_are_not_fatal_witness :
  first_line_of damaged_files "docs/4.txt"
    = Raise "[Errno 13] Permission denied: 'docs/4.txt'"
  /\ get_source_url scenario_self "docs/4.txt" damaged_world =
     (Return None,
      World damaged_files
        ["Error reading file docs/4.txt: [Errno 13] Permission denied: 'docs/4.txt'"] "").
Proof.
  assert (He : first_line_of (files damaged_world) "docs/4.txt"
               = Raise "[Errno 13] Permission denied: 'docs/4.txt'")
    by (vm_compute; reflexivity).
  split; [exact He|].
  exact (proj1 (proj1 (proj2
    (read_failures_are_not_fatal scenario_self damaged_inputs damaged_world)) _ _ He)).
Defined.

(** C7, as the code has it: a file whose first line, stripped of white
    space at both ends, does not start with [Source URL: ] has no URL and
    goes to the other bucket.  When no discovered file is itself an output
    file and the other bucket is not empty, [other_content.txt] holds the
    header [### Content from Other URLs ###], a blank line and the blocks of
    the members, built as for a group; when the other bucket is empty the
    run leaves that path as it was. *)
Theorem other_output_file (indir outdir : string) (text_files : list string) (w : world) :
  let self := init indir outdir in
  let fs := files w in
  let other_files := other_bucket self fs text_files in
  (forall p line, p ∈ text_files -> first_line_of fs p = Return line ->
     ~ is_prefix "Source URL: " (strip line) ->
     get_source_url self p w = (Return None, w) /\ (p, None) ∈ other_files)
  /\ (separate self text_files -> other_files <> [] ->
      files (combine_files self text_files w).2 !! path_join outdir "other_content.txt"
      = Some (Text (("### Content from Other URLs ###" +:+ nl +:+ nl)
                    +:+ blocks fs other_files)))
  /\ (other_files = [] ->
      files (combine_files self text_files w).2 !! path_join outdir "other_content.txt"
      = fs !! path_join outdir "other_content.txt").
Proof.
  intros self fs other_files. split; [|split].
  - intros p line Hp Hline Hno.
    assert (Hurl : source_url fs p = None).
    { destruct (source_url fs p) as [rest|] eqn:Hu; [|reflexivity].
      exfalso. apply Hno. exists rest. now apply (source_url_spec fs p). }
    split.
    + rewrite (get_source_url_returns self _ _ _ Hline). fold fs. now rewrite Hurl.
    + apply list_elem_of_filter. split; [reflexivity|].
      apply list_elem_of_fmap. exists p. unfold annotate. now rewrite Hurl.
  - intros Hsep Hne. rewrite combine_files_files.
    exact (combined_lookup_job indir outdir fs text_files _ Hsep
             (other_job_in self fs text_files Hne)).
  - intros Hnil. rewrite combine_files_files. unfold combined. apply emit_all_frame.
    intros Hin. apply jobs_paths_buckets in Hin as [(g' & Hg & Heq)|[Hne _]].
    + assert (Hk : g' ∈ map fst (url_patterns self)).
      { apply (scan_keys_in_table self fs text_files g' (group_bucket self fs text_files g')).
        now apply scan_group_bucket. }
      now apply (group_file_not_other indir outdir g' Hk).
    + now apply Hne.
Qed.

Lemma other_output_file_witness :
  separate scenario_self scenario_inputs
  /\ other_bucket scenario_self scenario_files scenario_inputs <> []
  /\ files (combine_files scenario_self scenario_inputs scenario_world).2
       !! path_join "combined_docs" "other_content.txt"
     = Some (Text (("### Content from Other URLs ###" +:+ nl +:+ nl)
                   +:+ blocks scenario_files
                         (other_bucket scenario_self scenario_files scenario_inputs))).
Proof.
  assert (Hsep : separate scenario_self scenario_inputs)
    by (apply separateb_correct; vm_compute; reflexivity).
  assert (Hne : other_bucket scenario_self scenario_files scenario_inputs <> [])
    by (vm_compute; discriminate).
  split; [exact Hsep | split; [exact Hne|]].
  exact (proj1 (proj2
    (other_output_file "docs" "combined_docs" scenario_inputs scenario_world)) Hsep Hne).
Defined.

(** C7, as stated, fails in two ways.  A first line that does not start
    with [Source URL: ] but has it after leading white space gives a URL,
    and the file goes to the bucket of its group, not to the other bucket.
    A member of the other bucket that bears the name of an output file
    written before is read after it has been overwritten. *)
Lemma other_output_file_literal_premise :
  (first_line_of (files indented_world) "docs/a.txt"
     = Return (" Source URL: https://docs.n8n.io/integrations/builtin/core-nodes/x" +:+ nl)
   /\ ~ is_prefix "Source URL: "
          (" Source URL: https://docs.n8n.io/integrations/builtin/core-nodes/x" +:+ nl)
   /\ get_source_url scenario_self "docs/a.txt" indented_world
      = (Return (Some "https://docs.n8n.io/integrations/builtin/core-nodes/x"), indented_world)
   /\ other_bucket scenario_self (files indented_world) ["docs/a.txt"] = []
   /\ group_bucket scenario_self (files indented_world) ["docs/a.txt"] "core-nodes"
      = [("docs/a.txt", Some "https://docs.n8n.io/integrations/builtin/core-nodes/x")])
  /\ (other_bucket shared_self shared_files shared_inputs = [("d/app-nodes.txt", None)]
      /\ files shared_world !! "d/app-nodes.txt"
         = Some (Text ("no source line" +:+ nl +:+ "C"))
      /\ forall content,
           files (combine_files shared_self shared_inputs shared_world).2
             !! "d/other_content.txt" = Some (Text content) ->
           ~ occurs ("no source line" +:+ nl +:+ "C") content).
Proof.
  split.
  - split; [vm_compute; reflexivity | split; [|repeat split; vm_compute; reflexivity]].
    intros [rest H]. vm_compute in H. discriminate.
  - split; [vm_compute; reflexivity | split; [vm_compute; reflexivity|]].
    intros content Hc. apply not_occurs.
    vm_compute in Hc. injection Hc as <-. vm_compute. reflexivity.
Qed.

(** C8: a URL that is exactly one of the five registered prefixes is
    classified into that prefix's group. *)
Theorem get_file_group_prefix_itself (indir outdir g pattern : string) :
  (g, pattern) ∈ url_patterns (init indir outdir) ->
  get_file_group (init indir outdir) (Some pattern) = Some g.
Proof.
  cbn [init url_patterns]. intros H.
  repeat (apply elem_of_cons in H as [[= -> ->]|H]); try reflexivity.
  inversion H.
Qed.

Lemma get_file_group_prefix_itself_witness :
  get_file_group (init "docs" "combined_docs")
    (Some "https://docs.n8n.io/integrations/builtin/credentials/") = Some "credentials".
Proof.
  apply (get_file_group_prefix_itself "docs" "combined_docs").
  cbn [init url_patterns]. repeat constructor.
Defined.



(** C10: when nothing but white space follows [Source URL:] on the first
    line, so that the stripped line is [Source URL:], [get_source_url]
    returns [None] and the file goes to the other bucket; the captured
    remainder is never empty. *)
Theorem get_source_url_empty_remainder
    (self : TextFileCombiner) (file_path line : string) (w : world) :
  first_line_of (files w) file_path = Return line ->
  strip line = "Source URL:" \/ strip line = "Source URL: " ->
  get_source_url self file_path w = (Return None, w)
  /\ (forall text_files, file_path ∈ text_files ->
        (file_path, None) ∈ other_bucket self (files w) text_files)
  /\ forall l, re_match_source_url l <> Some "".
Proof.
  intros Hline Hstrip.
  assert (Hurl : source_url (files w) file_path = None).
  { unfold source_url. rewrite Hline. now destruct Hstrip as [-> | ->]. }
  split; [|split].
  - rewrite (get_source_url_returns self _ _ _ Hline). now rewrite Hurl.
  - intros text_files Hin. unfold other_bucket. apply list_elem_of_filter. split.
    + reflexivity.
    + apply list_elem_of_fmap. exists file_path. unfold annotate. now rewrite Hurl.
  - intros l. unfold re_match_source_url.
    destruct (remove_prefix _ l); [|discriminate]. now destruct (dot_run _).
Qed.

Lemma get_source_url_empty_remainder_witness :
  let w := World {["docs/a.txt" := Text ("Source URL: " +:+ nl +:+ "body")]} [] "" in
  get_source_url (init "docs" "combined_docs") "docs/a.txt" w = (Return None, w).
Proof.
  intros w.
  apply (get_source_url_empty_remainder (init "docs" "combined_docs") "docs/a.txt"
           ("Source URL: " +:+ nl) w).
  - vm_compute. reflexivity.
  - left. vm_compute. reflexivity.
Defined.

(** * Further properties *)

Section TableFacts.

Implicit Types (url g pattern : string).

Lemma is_prefix_app pattern url tail : is_prefix pattern url -> is_prefix pattern (url +:+ tail).
Proof. intros [rest ->]. exists (rest +:+ tail). apply append_assoc. Qed.

(** No URL starts with two of the shipped prefixes. *)
Lemma init_patterns_exclusive indir outdir (e1 e2 : string * string) url :
  e1 ∈ url_patterns (init indir outdir) -> e2 ∈ url_patterns (init indir outdir) ->
  is_prefix e1.2 url -> is_prefix e2.2 url -> e1 = e2.
Proof.
  cbn [init url_patterns]. intros H1 H2 [r1 Hr1] [r2 Hr2].
  repeat (apply elem_of_cons in H1 as [->|H1]); try (now inversion H1);
  repeat (apply elem_of_cons in H2 as [->|H2]); try (now inversion H2);
  try reflexivity; exfalso; cbn [snd] in *; subst url; vm_compute in Hr2; discriminate.
Qed.

Lemma init_patterns_start indir outdir (e : string * string) :
  e ∈ url_patterns (init indir outdir) -> exists rest, e.2 = String "h"%char rest.
Proof.
  cbn [init url_patterns]. intros H.
  repeat (apply elem_of_cons in H as [->|H]); try (now inversion H); eexists; reflexivity.
Qed.

Lemma get_file_group_some_iff indir outdir url g :
  get_file_group (init indir outdir) (Some url) = Some g <->
  exists pattern, (g, pattern) ∈ url_patterns (init indir outdir) /\ is_prefix pattern url.
Proof.
  set (self := init indir outdir). split.
  - destruct url as [|c u]; [discriminate|]. intros H. apply first_match_some in H.
    destruct H as (before & pattern & after & Htab & Hp & _).
    exists pattern. split; [|exact Hp]. rewrite Htab. apply elem_of_app. right. constructor.
  - intros (pattern & Hin & Hp).
    destruct (init_patterns_start indir outdir _ Hin) as [ptail Hpat]. cbn [snd] in Hpat.
    destruct url as [|c u].
    { destruct Hp as [rest Hrest]. rewrite Hpat in Hrest. discriminate. }
    cbn [get_file_group].
    destruct (first_match (String c u) (url_patterns self)) as [g'|] eqn:Hf.
    + apply first_match_some in Hf. destruct Hf as (before & pattern' & after & Htab & Hp' & _).
      assert (Hin' : (g', pattern') ∈ url_patterns self).
      { rewrite Htab. apply elem_of_app. right. constructor. }
      assert (Heq := init_patterns_exclusive indir outdir _ _ _ Hin' Hin Hp' Hp). congruence.
    + exfalso. rewrite first_match_none in Hf. exact (Hf _ Hin Hp).
Qed.

End TableFacts.

(** X1: with the shipped table the group of a URL does not depend on the
    order of the entries: the URL is classified into [g] exactly when the
    prefix registered for [g] is a prefix of it. *)
Theorem get_file_group_shipped_table (indir outdir url g : string) :
  get_file_group (init indir outdir) (Some url) = Some g <->
  exists pattern, (g, pattern) ∈ url_patterns (init indir outdir) /\ is_prefix pattern url.
Proof.
  split; intros H.
  - now apply get_file_group_some_iff.
  - apply get_file_group_some_iff. destruct H as (pattern & Hin & Hp). now exists pattern.
Qed.

(** X2: with the shipped table a classified URL keeps its group when
    anything is appended to it. *)
Theorem get_file_group_extension (indir outdir url tail g : string) :
  get_file_group (init indir outdir) (Some url) = Some g ->
  get_file_group (init indir outdir) (Some (url +:+ tail)) = Some g.
Proof.
  rewrite !get_file_group_some_iff. intros (pattern & Hin & Hp).
  exists pattern. split; [exact Hin | now apply is_prefix_app].
Qed.

Lemma get_file_group_extension_witness :
  get_file_group scenario_self
    (Some ("https://docs.n8n.io/integrations/builtin/app-nodes/" +:+ "n8n-nodes-base.slack/"))
  = Some "app-nodes".
Proof.
  apply (get_file_group_extension "docs" "combined_docs"). reflexivity.
Defined.

Section LineFacts.

Implicit Types (s t pre rest line body : string) (c : ascii).

Lemma rstrip_idem s : rstrip (rstrip s) = rstrip s.
Proof.
  induction s as [|c s IH]; [reflexivity|].
  cbn [rstrip]. destruct (rstrip s) as [|d r] eqn:Hr.
  - destruct (isspace c) eqn:Hc; [reflexivity|]. cbn [rstrip]. now rewrite Hc.
  - cbn [rstrip] in *. now rewrite IH.
Qed.

(** What follows a prefix of a stripped string is stripped too. *)
Lemma rstrip_suffix pre s : rstrip (pre +:+ s) = pre +:+ s -> rstrip s = s.
Proof.
  induction pre as [|c pre IH]; [trivial|].
  change (String c pre +:+ s) with (String c (pre +:+ s)). cbn [rstrip].
  destruct (rstrip (pre +:+ s)) as [|d r] eqn:Hr.
  - destruct (isspace c); [discriminate|]. intros [= H].
    destruct pre; destruct s; try discriminate. reflexivity.
  - intros [= H]. apply IH. congruence.
Qed.

Lemma source_url_some fs path url :
  source_url fs path = Some url ->
  exists line, first_line_of fs path = Return line /\ strip line = "Source URL: " +:+ url.
Proof.
  intros H. destruct (first_line_of fs path) as [line|e] eqn:Hline.
  - exists line. split; [reflexivity|]. now apply (source_url_spec fs path).
  - unfold source_url in H. rewrite Hline in H. discriminate.
Qed.

Lemma lstrip_app s t :
  lstrip (s +:+ t) = match lstrip s with "" => lstrip t | r => r +:+ t end.
Proof.
  induction s as [|c s IH]; [reflexivity|].
  change (String c s +:+ t) with (String c (s +:+ t)). cbn [lstrip].
  destruct (isspace c); [exact IH | reflexivity].
Qed.

Lemma strip_line_feed line : strip (line +:+ nl) = strip line.
Proof.
  unfold strip. rewrite lstrip_app. destruct (lstrip line) as [|c r]; [reflexivity|].
  now apply rstrip_app_spaces.
Qed.

End LineFacts.

(** X3: a URL returned by [get_source_url] is not empty, holds no line feed
    and does not end in white space. *)
Theorem get_source_url_shape
    (self : TextFileCombiner) (file_path url : string) (w w' : world) :
  get_source_url self file_path w = (Return (Some url), w') ->
  url <> "" /\ has_newline url = false /\ rstrip url = url.
Proof.
  rewrite get_source_url_run. intros [= Hurl _].
  destruct (source_url_some _ _ _ Hurl) as (line & Hline & Hstrip).
  destruct (first_line_of_readline _ _ _ Hline) as [t ->].
  split; [|split].
  - intros ->. assert (H := rstrip_last _ "Source URL:" " "%char Hstrip). discriminate.
  - apply (has_newline_app "Source URL: "). rewrite <- Hstrip.
    apply has_newline_strip_readline.
  - apply (rstrip_suffix "Source URL: "). rewrite <- Hstrip. apply rstrip_idem.
Qed.

Lemma get_source_url_shape_witness :
  get_source_url scenario_self "docs/1.txt" scenario_world
  = (Return (Some "https://docs.n8n.io/integrations/builtin/core-nodes/x"), scenario_world)
  /\ rstrip "https://docs.n8n.io/integrations/builtin/core-nodes/x"
     = "https://docs.n8n.io/integrations/builtin/core-nodes/x".
Proof.
  assert (H : get_source_url scenario_self "docs/1.txt" scenario_world
              = (Return (Some "https://docs.n8n.io/integrations/builtin/core-nodes/x"),
                 scenario_world)) by (vm_compute; reflexivity).
  split; [exact H|].
  exact (proj2 (proj2 (get_source_url_shape _ _ _ _ _ H))).
Defined.

(** X4: what follows the end of the first line of a file, be it a line
    feed, a carriage return or both, has no part in the URL found in it. *)
Theorem get_source_url_ignores_body
    (self : TextFileCombiner) (file_path line e1 e2 body1 body2 : string) (w1 w2 : world) :
  has_line_break line = false ->
  line_end e1 -> line_end e2 ->
  files w1 !! file_path = Some (Text (line +:+ e1 +:+ body1)) ->
  files w2 !! file_path = Some (Text (line +:+ e2 +:+ body2)) ->
  (get_source_url self file_path w1).1 = (get_source_url self file_path w2).1
  /\ (get_source_url self file_path w1).1 = Return (re_match_source_url (strip line)).
Proof.
  intros Hline He1 He2 H1 H2. rewrite !get_source_url_run. cbn [fst].
  unfold source_url, first_line_of. rewrite H1, H2.
  rewrite !readline_stored by assumption.
  now rewrite strip_line_feed.
Qed.

Lemma get_source_url_ignores_body_witness :
  (get_source_url scenario_self "docs/1.txt" scenario_world).1
  = (get_source_url scenario_self "docs/1.txt"
       (World (<["docs/1.txt" :=
                  Text ("Source URL: https://docs.n8n.io/integrations/builtin/core-nodes/x"
                        +:+ cr +:+ "GOODBYE")]> scenario_files) [] "")).1.
Proof.
  apply (get_source_url_ignores_body scenario_self "docs/1.txt"
           "Source URL: https://docs.n8n.io/integrations/builtin/core-nodes/x"
           nl cr "HELLO" "GOODBYE");
    try (vm_compute; reflexivity).
  - now left.
  - right. now left.
Defined.

(** X5: white space between [Source URL: ] and the address stays in the
    URL, and with the shipped table such a URL is of no group.  (A carriage
    return is no such white space: it ends the line.) *)
Theorem get_source_url_extra_space
    (indir outdir file_path line rest : string) (c : ascii) (w : world) :
  first_line_of (files w) file_path = Return line ->
  strip line = "Source URL: " +:+ String c rest ->
  isspace c = true ->
  get_source_url (init indir outdir) file_path w = (Return (Some (String c rest)), w)
  /\ get_file_group (init indir outdir) (Some (String c rest)) = None.
Proof.
  intros Hline Hstrip Hc. split.
  - rewrite (get_source_url_returns _ _ _ _ Hline). do 2 f_equal.
    now apply (source_url_spec _ _ _ _ Hline).
  - destruct (get_file_group (init indir outdir) (Some (String c rest))) as [g|] eqn:Hg;
      [|reflexivity].
    apply get_file_group_some_iff in Hg as (pattern & Hin & [tail Htail]).
    destruct (init_patterns_start indir outdir _ Hin) as [ptail Hpat]. cbn [snd] in Hpat.
    rewrite Hpat in Htail. injection Htail as -> _. discriminate.
Qed.

Lemma get_source_url_extra_space_witness :
  let w := World {["docs/a.txt" :=
                    Text ("Source URL:  https://docs.n8n.io/integrations/builtin/core-nodes/x"
                          +:+ nl)]} [] "" in
  get_source_url scenario_self "docs/a.txt" w
  = (Return (Some " https://docs.n8n.io/integrations/builtin/core-nodes/x"), w)
  /\ get_file_group scenario_self
       (Some " https://docs.n8n.io/integrations/builtin/core-nodes/x") = None.
Proof.
  intros w.
  refine (get_source_url_extra_space "docs" "combined_docs" "docs/a.txt"
            ("Source URL:  https://docs.n8n.io/integrations/builtin/core-nodes/x" +:+ nl)
            "https://docs.n8n.io/integrations/builtin/core-nodes/x" " "%char w _ _ _);
    vm_compute; reflexivity.
Defined.

Section Counting.

Implicit Types (self : TextFileCombiner) (fs : gmap string file) (w : world).

Lemma concat_length {A} (ls : list (list A)) :
  length (concat ls) = sum_list (map length ls).
Proof.
  induction ls as [|l ls IH]; [reflexivity|].
  cbn [concat map sum_list sum_list_with]. now rewrite length_app, IH.
Qed.

Lemma members_of_length (b : buckets) :
  length (members_of b) = sum_list (map (fun gf : string * bucket => length gf.2) b.1) + length b.2.
Proof. unfold members_of. now rewrite length_app, concat_length, map_map. Qed.

Lemma combined_no_jobs self fs : combined self [] fs = fs.
Proof. reflexivity. Qed.

End Counting.

(** X6: the counts of the summary add up to the number of discovered
    files, and the summary closes what a run prints, after the line that
    tells how many files were found. *)
Theorem summary_counts_add_up (self : TextFileCombiner) (text_files : list string) (w : world) :
  let b := scan self (files w) text_files in
  sum_list (map (fun gf : string * bucket => length gf.2) b.1) + length b.2
    = length text_files
  /\ exists middle,
       console (combine_files self text_files w).2
       = console w
         ++ ["Found " +:+ str_of_nat (length text_files) +:+ " text files to process"]
         ++ middle
         ++ [nl +:+ "Combination complete. Summary:"]
         ++ map (fun gf : string * bucket =>
                   "- " +:+ gf.1 +:+ ": " +:+ str_of_nat (length gf.2) +:+ " files") b.1
         ++ ["- other_content: " +:+ str_of_nat (length b.2) +:+ " files"].
Proof.
  intros b. split.
  - rewrite <- members_of_length. unfold b. rewrite scan_members. apply length_map.
  - exists (scan_log (files w) text_files ++ emit_all_log (jobs self b) (files w)).
    rewrite combine_files_console. unfold printed, summary. fold b.
    now rewrite <- !app_assoc.
Qed.

(** X7: with no file discovered a run writes nothing and prints three
    lines. *)
Theorem combine_files_no_input (self : TextFileCombiner) (w : world) :
  combine_files self [] w
  = (Return tt,
     World (files w)
           (console w ++ ["Found 0 text files to process";
                          nl +:+ "Combination complete. Summary:";
                          "- other_content: 0 files"])
           (out_f w)).
Proof. rewrite combine_files_run. destruct w as [fs out cur]. reflexivity. Qed.

Section RunFacts.

Implicit Types (self : TextFileCombiner) (fs : gmap string file) (w : world) (j : job).

(** A path outside the jobs of a run is left as it was. *)
Lemma combined_frame self text_files fs p :
  p ∉ map job_path (jobs self (scan self fs text_files)) ->
  combined self text_files fs !! p = fs !! p.
Proof. apply emit_all_frame. Qed.

Lemma separate_unchanged self text_files fs p :
  separate self text_files -> p ∈ text_files ->
  combined self text_files fs !! p = fs !! p.
Proof.
  intros Hsep Hp. apply combined_frame. intros Hin.
  exact (Hsep p Hp (jobs_paths_outputs self fs text_files p Hin)).
Qed.

Lemma combined_again indir outdir text_files fs :
  let self := init indir outdir in
  (forall p, p ∈ text_files -> combined self text_files fs !! p = fs !! p) ->
  combined self text_files (combined self text_files fs) = combined self text_files fs.
Proof.
  intros self Hsame. unfold combined at 1.
  assert (Hscan : scan self (combined self text_files fs) text_files = scan self fs text_files)
    by (apply scan_from_ext; exact Hsame).
  rewrite Hscan. unfold combined. apply emit_all_again.
  - apply (jobs_paths_NoDup indir outdir).
  - intros j m Hj Hm. apply Hsame.
    now destruct (jobs_members_discovered self fs text_files j m Hj Hm).
Qed.

(** Every file written by a run holds its header first. *)
Lemma combined_lookup_header indir outdir text_files fs j :
  let self := init indir outdir in
  j ∈ jobs self (scan self fs text_files) ->
  exists body, combined self text_files fs !! job_path j = Some (Text (job_header j +:+ body)).
Proof.
  intros self Hj. unfold combined.
  assert (Hnd := jobs_paths_NoDup indir outdir fs text_files). cbv zeta in Hnd. fold self in Hnd.
  destruct (list_elem_of_split _ _ Hj) as (js1 & js2 & Hjs). rewrite Hjs in *.
  rewrite map_app in Hnd. cbn [map] in Hnd.
  apply NoDup_app in Hnd as (_ & _ & Hnd). apply NoDup_cons in Hnd as [Hnotin _].
  rewrite emit_all_lookup by exact Hnotin. eauto.
Qed.

Lemma blocks_all_failed fs (ms : bucket) :
  (forall m, m ∈ ms -> exists e, text_of fs m.1 = Raise e) -> blocks fs ms = "".
Proof.
  induction ms as [|m ms IH]; intros H; [reflexivity|].
  cbn [blocks]. destruct (H m) as [e He]; [constructor|].
  rewrite (member_block_failed fs m e He). apply IH. intros m' Hm'. apply H. now constructor.
Qed.

Lemma output_files_names self :
  output_files self = map (path_join (output_dir self)) (output_names self).
Proof.
  unfold output_files, output_names. rewrite map_app, map_map. reflexivity.
Qed.

End RunFacts.

(** X8: the output files of a run are fixed by the discovered files alone:
    two worlds that agree on them, none of them being an output file, get
    the same buckets and the same content in every file that is written,
    whatever the output files held before. *)
Theorem outputs_depend_on_inputs
    (indir outdir : string) (text_files : list string) (w1 w2 : world) :
  let self := init indir outdir in
  separate self text_files ->
  (forall p, p ∈ text_files -> files w1 !! p = files w2 !! p) ->
  scan self (files w1) text_files = scan self (files w2) text_files
  /\ forall j, j ∈ jobs self (scan self (files w1) text_files) ->
       files (combine_files self text_files w1).2 !! job_path j
       = files (combine_files self text_files w2).2 !! job_path j.
Proof.
  intros self Hsep Hsame. subst self.
  assert (Hscan : scan (init indir outdir) (files w1) text_files
                  = scan (init indir outdir) (files w2) text_files)
    by (apply scan_from_ext; exact Hsame).
  split; [exact Hscan|]. intros j Hj. rewrite !combine_files_files.
  rewrite (combined_lookup_job indir outdir (files w1) text_files j Hsep Hj).
  rewrite Hscan in Hj.
  rewrite (combined_lookup_job indir outdir (files w2) text_files j Hsep Hj).
  do 3 f_equal. apply blocks_ext. intros m Hm. apply Hsame.
  now destruct (jobs_members_discovered _ _ _ _ _ Hj Hm).
Qed.

Lemma outputs_depend_on_inputs_witness :
  let stale := World (<["combined_docs/core-nodes.txt" := Text "left by an earlier run"]>
                        scenario_files) [] "" in
  separate scenario_self scenario_inputs
  /\ (forall p, p ∈ scenario_inputs -> files scenario_world !! p = files stale !! p)
  /\ scan scenario_self (files scenario_world) scenario_inputs
     = scan scenario_self (files stale) scenario_inputs.
Proof.
  intros stale.
  assert (Hsep : separate scenario_self scenario_inputs)
    by (apply separateb_correct; vm_compute; reflexivity).
  assert (Hsame : forall p, p ∈ scenario_inputs -> files scenario_world !! p = files stale !! p).
  { intros p Hp. unfold scenario_inputs in Hp.
    repeat (apply elem_of_cons in Hp as [->|Hp]); try (vm_compute; reflexivity).
    inversion Hp. }
  split; [exact Hsep | split; [exact Hsame|]].
  exact (proj1 (outputs_depend_on_inputs "docs" "combined_docs" scenario_inputs
                  scenario_world stale Hsep Hsame)).
Defined.

(** X9: whatever the paths, every file a run writes ends up as a text that
    begins with the header of its bucket. *)
Theorem outputs_start_with_header
    (indir outdir : string) (text_files : list string) (w : world) (j : job) :
  let self := init indir outdir in
  j ∈ jobs self (scan self (files w) text_files) ->
  exists content,
    files (combine_files self text_files w).2 !! job_path j = Some (Text content)
    /\ is_prefix (job_header j) content.
Proof.
  intros self Hj. rewrite combine_files_files.
  destruct (combined_lookup_header indir outdir text_files (files w) j Hj) as [body Hbody].
  exists (job_header j +:+ body). split; [exact Hbody | now exists body].
Qed.

Lemma outputs_start_with_header_witness :
  other_job scenario_self (other_bucket scenario_self scenario_files scenario_inputs)
    ∈ jobs scenario_self (scan scenario_self (files scenario_world) scenario_inputs)
  /\ exists content,
       files (combine_files scenario_self scenario_inputs scenario_world).2
         !! "combined_docs/other_content.txt" = Some (Text content)
       /\ is_prefix ("### Content from Other URLs ###" +:+ nl +:+ nl) content.
Proof.
  assert (Hj : other_job scenario_self
                 (other_bucket scenario_self scenario_files scenario_inputs)
               ∈ jobs scenario_self (scan scenario_self (files scenario_world) scenario_inputs)).
  { apply other_job_in. vm_compute. discriminate. }
  split; [exact Hj|].
  exact (outputs_start_with_header "docs" "combined_docs" scenario_inputs scenario_world _ Hj).
Defined.

(** X10: a bucket whose members all fail to be read still gets its file,
    which holds the header and nothing else. *)
Theorem output_of_failed_members
    (indir outdir : string) (text_files : list string) (w : world) (j : job) :
  let self := init indir outdir in
  separate self text_files ->
  j ∈ jobs self (scan self (files w) text_files) ->
  (forall m, m ∈ job_members j -> exists e, text_of (files w) m.1 = Raise e) ->
  files (combine_files self text_files w).2 !! job_path j = Some (Text (job_header j)).
Proof.
  intros self Hsep Hj Hfail. subst self. rewrite combine_files_files.
  rewrite (combined_lookup_job indir outdir (files w) text_files j Hsep Hj).
  now rewrite (blocks_all_failed _ _ Hfail), append_nil_r.
Qed.

Lemma output_of_failed_members_witness :
  let j := group_job scenario_self
             ("app-nodes", group_bucket scenario_self damaged_files damaged_inputs "app-nodes") in
  separate scenario_self damaged_inputs
  /\ j ∈ jobs scenario_self (scan scenario_self (files damaged_world) damaged_inputs)
  /\ files (combine_files scenario_self damaged_inputs damaged_world).2
       !! "combined_docs/app-nodes.txt"
     = Some (Text ("### Combined Content for app-nodes ###" +:+ nl +:+ nl)).
Proof.
  intros j.
  assert (Hsep : separate scenario_self damaged_inputs)
    by (apply separateb_correct; vm_compute; reflexivity).
  assert (Hb : group_bucket scenario_self damaged_files damaged_inputs "app-nodes"
               = [("docs/5.txt",
                   Some "https://docs.n8n.io/integrations/builtin/app-nodes/z")])
    by (vm_compute; reflexivity).
  assert (Hj : j ∈ jobs scenario_self (scan scenario_self (files damaged_world) damaged_inputs)).
  { apply group_job_in. cbn [files damaged_world]. rewrite Hb. discriminate. }
  assert (Hfail : forall m, m ∈ job_members j ->
                    exists e, text_of (files damaged_world) m.1 = Raise e).
  { intros m Hm. unfold j in Hm. cbn [group_job job_members snd] in Hm. rewrite Hb in Hm.
    apply list_elem_of_singleton in Hm as ->. eexists. vm_compute. reflexivity. }
  split; [exact Hsep | split; [exact Hj|]].
  exact (output_of_failed_members "docs" "combined_docs" damaged_inputs damaged_world j
           Hsep Hj Hfail).
Defined.

(** X11: a run changes at most six paths, each of them one of the six
    output names joined to the output directory. *)
Theorem at_most_six_outputs (indir outdir : string) (text_files : list string) (w : world) :
  let self := init indir outdir in
  let written := map job_path (jobs self (scan self (files w) text_files)) in
  length written <= 6
  /\ (forall p, p ∈ written -> exists name, name ∈ output_names self /\ p = path_join outdir name)
  /\ forall p, files (combine_files self text_files w).2 !! p <> files w !! p -> p ∈ written.
Proof.
  intros self written. split; [|split].
  - assert (Hl : length (output_files self) = 6) by reflexivity. rewrite <- Hl.
    apply submseteq_length, NoDup_submseteq; [apply (jobs_paths_NoDup indir outdir)|].
    intros p Hp. now apply (jobs_paths_outputs self (files w) text_files).
  - intros p Hp. apply (jobs_paths_outputs self) in Hp. rewrite output_files_names in Hp.
    apply list_elem_of_fmap in Hp as [name [-> Hname]]. now exists name.
  - intros p Hp. destruct (decide (p ∈ written)) as [Hin|Hout]; [exact Hin|].
    exfalso. apply Hp. rewrite combine_files_files. now apply combined_frame.
Qed.

(** X12: when no discovered file is an output file, a second run over the
    same files leaves every file as the first run left it. *)
Theorem combine_files_twice_separate
    (indir outdir : string) (text_files : list string) (w : world) :
  let self := init indir outdir in
  let w1 := (combine_files self text_files w).2 in
  separate self text_files ->
  files (combine_files self text_files w1).2 = files w1.
Proof.
  intros self w1 Hsep. unfold w1. rewrite !combine_files_files.
  apply (combined_again indir outdir). intros p Hp. now apply separate_unchanged.
Qed.

Lemma combine_files_twice_separate_witness :
  let w1 := (combine_files scenario_self damaged_inputs damaged_world).2 in
  separate scenario_self damaged_inputs
  /\ files (combine_files scenario_self damaged_inputs w1).2 = files w1.
Proof.
  intros w1.
  assert (Hsep : separate scenario_self damaged_inputs)
    by (apply separateb_correct; vm_compute; reflexivity).
  split; [exact Hsep|].
  exact (combine_files_twice_separate "docs" "combined_docs" damaged_inputs damaged_world Hsep).
Defined.

Section OrderFacts.

Implicit Types (self : TextFileCombiner) (fs : gmap string file) (g k : string).



Lemma first_seen_ext (s1 s2 ks : list string) :
  (forall k, k ∈ s1 <-> k ∈ s2) -> first_seen s1 ks = first_seen s2 ks.
Proof.
  revert s1 s2. induction ks as [|k ks IH]; intros s1 s2 H; [reflexivity|].
  cbn [first_seen]. destruct (decide (k ∈ s1)) as [H1|H1], (decide (k ∈ s2)) as [H2|H2].
  - now apply IH.
  - exfalso. apply H2. now apply H.
  - exfalso. apply H1. now apply H.
  - f_equal. apply IH. intros k'. rewrite !elem_of_cons. now rewrite H.
Qed.

Lemma scan_from_keys self fs (acc : buckets) text_files :
  map fst (scan_from self fs acc text_files).1
  = map fst acc.1 ++ first_seen (map fst acc.1) (groups_met self fs text_files).
Proof.
  revert acc. induction text_files as [|p rest IH]; intros acc.
  - cbn. now rewrite app_nil_r.
  - unfold scan_from, groups_met in *. cbn [fold_left]. rewrite IH, place_spec.
    cbn [omap list_omap].
    destruct (bucket_of self (annotate fs p)) as [g|]; cbn [fst first_seen]; [|reflexivity].
    rewrite dict_append_keys. destruct (decide (g ∈ map fst acc.1)) as [Hg|Hg]; [reflexivity|].
    rewrite <- app_assoc. cbn [app]. do 2 f_equal. apply first_seen_ext.
    intros k. rewrite elem_of_app, !elem_of_cons, elem_of_nil. tauto.
Qed.

End OrderFacts.



(** X14: the groups of the dictionary, hence the output files and the lines
    of the summary, come in the order in which their first file is
    discovered. *)
Theorem groups_in_discovery_order
    (self : TextFileCombiner) (fs : gmap string file) (text_files : list string) :
  map fst (scan self fs text_files).1 = first_seen [] (groups_met self fs text_files)
  /\ map job_path (jobs self (scan self fs text_files))
     = map (group_file self) (first_seen [] (groups_met self fs text_files))
       ++ match other_bucket self fs text_files with
          | [] => []
          | _ :: _ => [other_file self]
          end.
Proof.
  assert (Hkeys : map fst (scan self fs text_files).1
                  = first_seen [] (groups_met self fs text_files))
    by apply (scan_from_keys self fs ([], [])).
  split; [exact Hkeys|].
  now rewrite jobs_paths, Hkeys, scan_other_bucket.
Qed.

(** X15: every member of the bucket of a group is a discovered file whose
    stripped first line is [Source URL: ] followed by a URL that starts with
    a prefix registered for that group. *)
Theorem group_members_carry_prefix
    (self : TextFileCombiner) (fs : gmap string file) (text_files : list string)
    (g : string) (m : string * option string) :
  m ∈ group_bucket self fs text_files g ->
  m.1 ∈ text_files
  /\ exists line url pattern,
       first_line_of fs m.1 = Return line
       /\ strip line = "Source URL: " +:+ url
       /\ m.2 = Some url
       /\ (g, pattern) ∈ url_patterns self
       /\ is_prefix pattern url.
Proof.
  unfold group_bucket. intros Hm. apply list_elem_of_filter in Hm as [Hb Hm].
  apply list_elem_of_fmap in Hm as [p [-> Hp]]. split; [exact Hp|].
  unfold bucket_of in Hb. cbn [annotate fst snd] in *.
  destruct (source_url fs p) as [url|] eqn:Hurl; [|discriminate].
  destruct (source_url_some _ _ _ Hurl) as (line & Hline & Hstrip).
  destruct (get_file_group self (Some url)) as [g'|] eqn:Hg; [|discriminate].
  destruct (truthy (Some g')); [|discriminate]. injection Hb as ->.
  destruct url as [|c u]; [discriminate|]. cbn [get_file_group] in Hg.
  apply first_match_some in Hg. destruct Hg as (before & pattern & after & Htab & Hpre & _).
  exists line, (String c u), pattern. repeat split; try assumption.
  rewrite Htab. apply elem_of_app. right. constructor.
Qed.

Lemma group_members_carry_prefix_witness :
  ("docs/2.txt", Some "https://docs.n8n.io/integrations/builtin/credentials/y")
    ∈ group_bucket scenario_self scenario_files scenario_inputs "credentials"
  /\ "docs/2.txt" ∈ scenario_inputs.
Proof.
  assert (H : ("docs/2.txt", Some "https://docs.n8n.io/integrations/builtin/credentials/y")
                ∈ group_bucket scenario_self scenario_files scenario_inputs "credentials")
    by (vm_compute; constructor).
  split; [exact H|].
  exact (proj1 (group_members_carry_prefix scenario_self scenario_files scenario_inputs
                  "credentials" _ H)).
Defined.

(** * Sample runs, evaluated *)

Section Examples.

Example scenario_core_nodes :
  files (combine_files scenario_self scenario_inputs scenario_world).2
    !! "combined_docs/core-nodes.txt"
  = Some (Text ("### Combined Content for core-nodes ###" +:+ nl +:+ nl
                +:+ nl +:+ repeat_char "=" 80 +:+ nl
                +:+ "Source URL: https://docs.n8n.io/integrations/builtin/core-nodes/x"
                +:+ nl +:+ "HELLO"
                +:+ nl +:+ repeat_char "=" 80 +:+ nl)).
Proof. vm_compute. reflexivity. Qed.

Example scenario_other_content :
  files (combine_files scenario_self scenario_inputs scenario_world).2
    !! "combined_docs/other_content.txt"
  = Some (Text ("### Content from Other URLs ###" +:+ nl +:+ nl
                +:+ nl +:+ repeat_char "=" 80 +:+ nl
                +:+ "no source line here"
                +:+ nl +:+ repeat_char "=" 80 +:+ nl)).
Proof. vm_compute. reflexivity. Qed.

Example scenario_console :
  console (combine_files scenario_self scenario_inputs scenario_world).2
  = ["Found 3 text files to process";
     "Creating combined file for core-nodes with 1 files";
     "Creating combined file for credentials with 1 files";
     "Creating file for other content with 1 files";
     nl +:+ "Combination complete. Summary:";
     "- core-nodes: 1 files";
     "- credentials: 1 files";
     "- other_content: 1 files"].
Proof. vm_compute. reflexivity. Qed.

Example damaged_app_nodes :
  files (combine_files scenario_self damaged_inputs damaged_world).2
    !! "combined_docs/app-nodes.txt"
  = Some (Text ("### Combined Content for app-nodes ###" +:+ nl +:+ nl)).
Proof. vm_compute. reflexivity. Qed.

Example carriage_return_ends_first_line :
  (get_source_url scenario_self "docs/1.txt"
     (World {["docs/1.txt" :=
               Text ("Source URL: https://docs.n8n.io/integrations/builtin/core-nodes/x"
                     +:+ cr +:+ "HELLO" +:+ nl)]} [] "")).1
  = Return (Some "https://docs.n8n.io/integrations/builtin/core-nodes/x").
Proof. vm_compute. reflexivity. Qed.

Example carriage_return_after_marker :
  (get_source_url scenario_self "docs/1.txt"
     (World {["docs/1.txt" := Text ("Source URL: " +:+ cr +:+ "U" +:+ nl)]} [] "")).1
  = Return None.
Proof. vm_compute. reflexivity. Qed.

Example crlf_core_nodes :
  files (combine_files scenario_self ["docs/1.txt"] crlf_world).2
    !! "combined_docs/core-nodes.txt"
  = Some (Text ("### Combined Content for core-nodes ###" +:+ nl +:+ nl
                +:+ nl +:+ repeat_char "=" 80 +:+ nl
                +:+ "Source URL: https://docs.n8n.io/integrations/builtin/core-nodes/x"
                +:+ nl +:+ "HELLO" +:+ nl
                +:+ nl +:+ repeat_char "=" 80 +:+ nl)).
Proof. vm_compute. reflexivity. Qed.

Example earlier_entry_wins :
  get_file_group overlapping_self
    (Some "https://docs.n8n.io/integrations/builtin/core-nodes/x") = Some "builtin".
Proof. reflexivity. Qed.

Example app_nodes_foo :
  get_file_group scenario_self
    (Some "https://docs.n8n.io/integrations/builtin/app-nodes/foo") = Some "app-nodes".
Proof. reflexivity. Qed.

End Examples.
